(** * Workshop attendance system: live attendance core

    Shallow embedding of the attendance storage schema
    ([database_schema.sql]) and of the live tracking view of the React
    front end ([App.jsx]: [connectLiveStream], [filteredLive],
    [exportCSV], [startScanner]). *)

From Stdlib Require Import String Ascii ZArith Lia.
From stdpp Require Import base gmap strings list pretty.

Open Scope string_scope.

(* ================================================================= *)
(** ** JavaScript values of attendee records *)

(** The fields of attendee records and stream messages are JSON
    primitives (ids, names, statuses and timestamps are strings).
    JSON numbers are modelled as integers. *)
Inductive jv :=
| JNull
| JBool (b : bool)
| JNum (n : Z)
| JStr (s : string).

#[global] Instance jv_eq_dec : EqDecision jv.
Proof. solve_decision. Defined.

(** A JavaScript object with primitive fields: property name to value.
    A missing property reads as [undefined], i.e. [None]. *)
Abbreviation obj := (gmap string jv).

(** [a === b] on property reads ([undefined === undefined] holds; JSON
    never produces NaN). *)
Definition strict_eq (a b : option jv) : bool :=
  match a, b with
  | None, None => true
  | Some JNull, Some JNull => true
  | Some (JBool x), Some (JBool y) => Bool.eqb x y
  | Some (JNum x), Some (JNum y) => Z.eqb x y
  | Some (JStr x), Some (JStr y) => String.eqb x y
  | _, _ => false
  end.

(** JavaScript truthiness of a property read. *)
Definition truthy (v : option jv) : bool :=
  match v with
  | None | Some JNull => false
  | Some (JBool b) => b
  | Some (JNum n) => negb (Z.eqb n 0)
  | Some (JStr s) => negb (String.eqb s "")
  end.

(** Result of [JSON.parse(evt.data)]: an object or a primitive;
    [None] when [JSON.parse] throws (keep-alive comments, heartbeats). *)
Inductive parsed :=
| PObj (o : obj)
| PPrim (v : jv).

(* ================================================================= *)
(** ** Client reconciler: [es.onmessage] of [connectLiveStream] *)

(** [Array.prototype.findIndex]; [None] stands for [-1]. *)
Fixpoint find_index {A} (p : A -> bool) (l : list A) : option nat :=
  match l with
  | [] => None
  | x :: l' => if p x then Some 0 else S <$> find_index p l'
  end.

(** The functional state update passed to [setLiveAttendees]:
    [idx = prev.findIndex(a => a.id === msg.id)];
    [updated[idx] = { ...updated[idx], ...msg }].  Object spread with
    [msg] last lets [msg]'s properties win: the left-biased union
    [msg ∪ row]. *)
Definition merge_update (msg : obj) (prev : list obj) : list obj :=
  match find_index (fun a => strict_eq (a !! "id") (msg !! "id")) prev with
  | None => prev
  | Some idx =>
      match prev !! idx with
      | Some row => <[idx := msg ∪ row]> prev
      | None => prev
      end
  end.

(** [es.onmessage]: its effect on the [liveAttendees] state.  A payload
    that [JSON.parse] rejects is caught and ignored; [msg?.type] and
    [msg.id] read [undefined] on primitives. *)
Definition on_message (payload : option parsed) (prev : list obj) : list obj :=
  match payload with
  | None => prev
  | Some (PPrim _) => prev
  | Some (PObj msg) =>
      if strict_eq (msg !! "type") (Some (JStr "connected")) then prev
      else if truthy (msg !! "id") then merge_update msg prev
      else prev
  end.

(* ================================================================= *)
(** ** Attendance storage: the [attendance] table *)

(** A row of [attendance]: [id UUID PRIMARY KEY], [attendee_id UUID NOT
    NULL], [entry_time TIMESTAMPTZ NOT NULL]; UUIDs are modelled as
    naturals, timestamps as integers. *)
Record attendance_row := {
  att_id : nat;
  attendee_id : nat;
  entry_time : Z
}.

(** SQL statements on the table.  [SDelete] also covers the
    [ON DELETE CASCADE] from [attendees]. *)
Inductive stmt :=
| SInsert (r : attendance_row)
| SDelete (p : attendance_row -> bool)
| SUpdate (p : attendance_row -> bool) (f : attendance_row -> attendance_row).

Inductive db_error :=
| PrimaryKeyViolation
| UniqueViolation.

(** The table a statement would produce. *)
Definition candidate (t : list attendance_row) (s : stmt) : list attendance_row :=
  match s with
  | SInsert r => t ++ [r]
  | SDelete p => List.filter (fun r => negb (p r)) t
  | SUpdate p f => List.map (fun r => if p r then f r else r) t
  end.

(** A statement commits only when the resulting table satisfies
    [PRIMARY KEY (id)] and [UNIQUE (attendee_id)]; otherwise it fails
    and the table is left as it was (statement atomicity). *)
Definition exec (t : list attendance_row) (s : stmt)
    : list attendance_row + db_error :=
  let t' := candidate t s in
  if bool_decide (NoDup (List.map att_id t')) then
    if bool_decide (NoDup (List.map attendee_id t')) then inl t'
    else inr UniqueViolation
  else inr PrimaryKeyViolation.

Definition step (t : list attendance_row) (s : stmt) : list attendance_row :=
  match exec t s with
  | inl t' => t'
  | inr _ => t
  end.

Definition run (t : list attendance_row) (ss : list stmt) : list attendance_row :=
  List.fold_left step ss t.

(* ================================================================= *)
(** ** Check-in registrar *)

(** A row of [attendees] as far as check-in reads it; [qr_data] is the
    scan token ([VARCHAR(500) NOT NULL UNIQUE]). *)
Record attendee := {
  a_id : nat;
  a_name : string;
  a_batch : string;
  qr_data : string
}.

Inductive checkin_result :=
| CheckedIn (a : attendee) (entry : Z)
| AlreadyCheckedIn (entry : Z)
| NotFound
| TransientStoreFailure.

(** Modelled from the spec: [RegistrationStore.findByToken], the lookup
    of the attendee owning a scan token (the backend is not part of the
    sources). *)
Definition find_by_token (attendees : list attendee) (tok : string)
    : option attendee :=
  List.find (fun a => String.eqb (qr_data a) tok) attendees.

(** Modelled from the spec: the timestamp of the existing check-in event
    of an attendee. *)
Definition existing_entry_time (t : list attendance_row) (aid : nat)
    : option Z :=
  entry_time <$> List.find (fun r => Nat.eqb (attendee_id r) aid) t.

(** Modelled from the spec: [checkIn(token)] of the backend's scan
    endpoint.  Lookup by token ([NotFound]), then an insert-or-fail into
    [attendance] with the server time [now] and a fresh row id [uuid]; a
    unique-constraint conflict is translated into [AlreadyCheckedIn]
    carrying the existing event's timestamp. *)
Definition check_in (attendees : list attendee) (t : list attendance_row)
    (tok : string) (uuid : nat) (now : Z)
    : checkin_result * list attendance_row :=
  match find_by_token attendees tok with
  | None => (NotFound, t)
  | Some a =>
      match exec t (SInsert {| att_id := uuid; attendee_id := a_id a;
                               entry_time := now |}) with
      | inl t' => (CheckedIn a now, t')
      | inr UniqueViolation =>
          match existing_entry_time t (a_id a) with
          | Some et => (AlreadyCheckedIn et, t)
          | None => (TransientStoreFailure, t)
          end
      | inr PrimaryKeyViolation => (TransientStoreFailure, t)
      end
  end.

(** Concurrent [checkIn] calls with one token.  The storage serialises
    their atomic inserts; [calls] lists each call's row id and server
    time in that serialisation order, and any interleaving of the
    requests yields some such order. *)
Fixpoint check_in_all (attendees : list attendee) (t : list attendance_row)
    (tok : string) (calls : list (nat * Z)) : list checkin_result :=
  match calls with
  | [] => []
  | (u, n) :: cs =>
      let '(r, t') := check_in attendees t tok u n in
      r :: check_in_all attendees t' tok cs
  end.

(* ================================================================= *)
(** ** String built-ins used by the live view *)

(** Characters are UTF-16 code units restricted to U+0000..U+00FF. *)

(** [String.prototype.toLowerCase] on one code unit: A-Z and the
    Latin-1 capitals U+00C0..U+00DE except U+00D7. *)
Definition to_lower_char (c : ascii) : ascii :=
  let n := nat_of_ascii c in
  if (((65 <=? n) && (n <=? 90)) || ((192 <=? n) && (n <=? 222) && negb (n =? 215)))%nat
  then ascii_of_nat (n + 32)%nat else c.

Fixpoint to_lower (s : string) : string :=
  match s with
  | EmptyString => EmptyString
  | String c s' => String (to_lower_char c) (to_lower s')
  end.

(** White space and line terminators removed by [String.prototype.trim]
    (TAB, LF, VT, FF, CR, SPACE, NBSP). *)
Definition is_ws (c : ascii) : bool :=
  let n := nat_of_ascii c in
  (((9 <=? n) && (n <=? 13)) || (n =? 32) || (n =? 160))%nat.

Fixpoint trim_start (s : string) : string :=
  match s with
  | EmptyString => EmptyString
  | String c s' => if is_ws c then trim_start s' else s
  end.

Fixpoint trim_end (s : string) : string :=
  match s with
  | EmptyString => EmptyString
  | String c s' =>
      let r := trim_end s' in
      if is_ws c && String.eqb r "" then EmptyString else String c r
  end.

(** [String.prototype.trim]. *)
Definition trim (s : string) : string := trim_end (trim_start s).

(** [s.includes(q)]: [q] is a prefix of some suffix of [s]. *)
Fixpoint includes (q s : string) : bool :=
  String.prefix q s ||
  match s with
  | EmptyString => false
  | String _ s' => includes q s'
  end.

(* ================================================================= *)
(** ** Live view search: [filteredLive] *)

(** [(v || "").toLowerCase()]; [None] when [toLowerCase] is not a
    method of the value (a [TypeError]). *)
Definition lower_or_empty (v : option jv) : option string :=
  if truthy v then
    match v with
    | Some (JStr s) => Some (to_lower s)
    | _ => None
    end
  else Some "".

(** The callback given to [liveAttendees.filter]. *)
Definition live_pred (liveSearch : string) (a : obj) : option bool :=
  if String.eqb (trim liveSearch) "" then Some true
  else
    let q := to_lower liveSearch in
    match lower_or_empty (a !! "name") with
    | None => None
    | Some n =>
        if includes q n then Some true
        else
          match lower_or_empty (a !! "mobile") with
          | None => None
          | Some m => Some (includes q m)
          end
    end.

(** [Array.prototype.filter] with a callback that may throw: it builds a
    new array and never writes to the input. *)
Fixpoint filter_opt {A} (p : A -> option bool) (l : list A) : option (list A) :=
  match l with
  | [] => Some []
  | x :: l' =>
      match p x with
      | None => None
      | Some b => (fun r => if b then x :: r else r) <$> filter_opt p l'
      end
  end.

Definition filteredLive (liveAttendees : list obj) (liveSearch : string)
    : option (list obj) :=
  filter_opt (live_pred liveSearch) liveAttendees.

(** The search rule in the words of the spec: [q] occurs in [s] when
    case is ignored, character by character. *)
Fixpoint ci_prefix (q s : string) : bool :=
  match q, s with
  | EmptyString, _ => true
  | String c q', String d s' =>
      Ascii.eqb (to_lower_char c) (to_lower_char d) && ci_prefix q' s'
  | String _ _, EmptyString => false
  end.

Fixpoint ci_contains (q s : string) : bool :=
  ci_prefix q s ||
  match s with
  | EmptyString => false
  | String _ s' => ci_contains q s'
  end.

(** A text column: a string, [null] or absent. *)
Definition text_field (v : option jv) : Prop :=
  v = None \/ v = Some JNull \/ exists s, v = Some (JStr s).

Definition field_text (v : option jv) : string :=
  match v with
  | Some (JStr s) => s
  | _ => ""
  end.

Definition row_matches (q : string) (a : obj) : bool :=
  ci_contains q (field_text (a !! "name")) ||
  ci_contains q (field_text (a !! "mobile")).

(* ================================================================= *)
(** ** CSV export: [exportCSV] *)

Definition dquote : ascii := "034"%char.
Definition comma : ascii := ","%char.
Definition newline : ascii := "010"%char.

(** [String(v)] on a primitive. *)
Definition js_to_string (v : jv) : string :=
  match v with
  | JNull => "null"
  | JBool true => "true"
  | JBool false => "false"
  | JNum n => pretty n
  | JStr s => s
  end.

(** [v || ""]. *)
Definition or_empty (v : option jv) : jv :=
  match v with
  | Some x => if truthy v then x else JStr ""
  | None => JStr ""
  end.

Definition csv_header : list jv :=
  List.map JStr ["Name"; "Email"; "Mobile"; "Batch"; "Status"; "Entry Time";
                 "QR Email"; "QR WhatsApp"; "Entry Email"; "Entry WhatsApp"].

(** The cells of one attendee; [date_str v] is
    [new Date(v).toLocaleString()], which depends on the browser's
    locale and time zone. *)
Definition csv_cells (date_str : jv -> string) (a : obj) : list jv :=
  [or_empty (a !! "name");
   or_empty (a !! "email");
   or_empty (a !! "mobile");
   or_empty (a !! "batch");
   JStr (if strict_eq (a !! "attendance_status") (Some (JStr "P"))
         then "Present" else "Absent");
   JStr (match a !! "entry_time" with
         | Some v => if truthy (Some v) then date_str v else ""
         | None => ""
         end);
   or_empty (a !! "qr_email_status");
   or_empty (a !! "qr_whatsapp_status");
   or_empty (a !! "entry_email_status");
   or_empty (a !! "entry_whatsapp_status")].

(** [s.replace(...)] with the global regular expression for the double
    quote character: every double quote is written twice. *)
Fixpoint escape_quotes (s : string) : string :=
  match s with
  | EmptyString => EmptyString
  | String c s' =>
      if Ascii.eqb c dquote then String dquote (String dquote (escape_quotes s'))
      else String c (escape_quotes s')
  end.

(** A cell: [String(cell ?? "")], escaped and wrapped in double quotes
    (the cells are never [null] or [undefined]). *)
Definition quote_cell (v : jv) : string :=
  String dquote (escape_quotes (js_to_string v) ++ String dquote EmptyString).

(** [Array.prototype.join]. *)
Fixpoint join (sep : string) (l : list string) : string :=
  match l with
  | [] => EmptyString
  | [x] => x
  | x :: l' => x ++ sep ++ join sep l'
  end.

Definition csv_line (cells : list jv) : string :=
  join "," (List.map quote_cell cells).

Definition csv_text (rows : list (list jv)) : string :=
  join (String newline EmptyString) (List.map csv_line rows).

(** The text put in the downloaded [Blob]: the header and the rows of
    [filteredLive], the list the live table shows. *)
Definition export_csv (date_str : jv -> string) (liveAttendees : list obj)
    (liveSearch : string) : option string :=
  (fun fl => csv_text (csv_header :: List.map (csv_cells date_str) fl))
    <$> filteredLive liveAttendees liveSearch.

(** A reader of CSV text made of quoted fields (RFC 4180): a doubled
    quote inside a quoted field stands for one quote, fields are
    separated by commas and records by line feeds. *)
Inductive lex_state :=
| FieldStart
| InQuoted
| QuoteSeen.

Fixpoint lex (st : lex_state) (field : string) (record : list string)
    (records : list (list string)) (s : string) : option (list (list string)) :=
  match s with
  | EmptyString =>
      match st with
      | QuoteSeen => Some (records ++ [record ++ [field]])%list
      | _ => None
      end
  | String c s' =>
      match st with
      | FieldStart =>
          if Ascii.eqb c dquote then lex InQuoted EmptyString record records s'
          else None
      | InQuoted =>
          if Ascii.eqb c dquote then lex QuoteSeen field record records s'
          else lex InQuoted (field ++ String c EmptyString) record records s'
      | QuoteSeen =>
          if Ascii.eqb c dquote then
            lex InQuoted (field ++ String dquote EmptyString) record records s'
          else if Ascii.eqb c comma then
            lex FieldStart EmptyString (record ++ [field])%list records s'
          else if Ascii.eqb c newline then
            lex FieldStart EmptyString [] (records ++ [record ++ [field]])%list s'
          else None
      end
  end.

Definition parse_csv (s : string) : option (list (list string)) :=
  lex FieldStart EmptyString [] [] s.

(* ================================================================= *)
(** ** Live stream lifecycle: [loadLiveAttendees], [connectLiveStream] *)

(** The externally visible actions of the live tab, in program order. *)
Inductive effect :=
| FetchSnapshot                (* [apiCall("/attendees/live")] *)
| CloseStream                  (* [eventSource.close()] / [es.close()] *)
| OpenStream                   (* [new EventSource(url)]; [setEventSource(es)] *)
| ClearStream                  (* [setEventSource(null)] *)
| ScheduleReconnect (ms : nat). (* [setTimeout(connectLiveStream, ms)] *)

#[global] Instance effect_eq_dec : EqDecision effect.
Proof. solve_decision. Defined.

Definition loadLiveAttendees : list effect := [FetchSnapshot].

(** [connectLiveStream]; [eventSource] is the stream held by the state
    the closure was created in. *)
Definition connectLiveStream (token : option string) (eventSource : bool)
    : list effect :=
  match token with
  | None => []
  | Some _ => (if eventSource then [CloseStream] else []) ++ [OpenStream]
  end.

(** The effect of the live tab: [loadLiveAttendees(); connectLiveStream();]
    when [view === "staff" && activeTab === "live" && token]. *)
Definition enter_live_tab (token : option string) (eventSource : bool)
    : list effect :=
  match token with
  | None => []
  | Some _ => loadLiveAttendees ++ connectLiveStream token eventSource
  end.

(** [es.onerror]. *)
Definition on_stream_error : list effect :=
  [CloseStream; ClearStream; ScheduleReconnect 5000].

(** A stream failure, then the reconnect timer firing: it runs the
    [connectLiveStream] it was given. *)
Definition reconnection (token : option string) (eventSource : bool)
    : list effect :=
  on_stream_error ++ connectLiveStream token eventSource.

(** Snapshot-then-subscribe: every [OpenStream] of a trace comes after a
    [FetchSnapshot] of the same trace. *)
Fixpoint snapshot_before_subscribe_from (fetched : bool) (tr : list effect) : bool :=
  match tr with
  | [] => true
  | FetchSnapshot :: tr' => snapshot_before_subscribe_from true tr'
  | OpenStream :: tr' => fetched && snapshot_before_subscribe_from fetched tr'
  | _ :: tr' => snapshot_before_subscribe_from fetched tr'
  end.

Definition snapshot_before_subscribe (tr : list effect) : bool :=
  snapshot_before_subscribe_from false tr.

(* ================================================================= *)
(** ** QR scanner: the scan callback of [startScanner] *)

(** What [apiCall("/scan", ...)] gives the callback: a decoded body
    whose [attendee] field is read ([None] when the body is not JSON or
    has no [attendee], so that [result.attendee.name] throws), an HTTP
    error ([apiCall] throws on [!resp.ok]) or a network failure. *)
Inductive scan_response :=
| ScanOk (attendee : option obj)
| ScanHttpError (status : nat) (body : string)
| ScanNetworkError.

(** The notification shown: message and type.  Every exception of the
    [try] block reaches the same [catch]. *)
Definition scan_notification (r : scan_response) : string * string :=
  match r with
  | ScanOk (Some a) =>
      ("Attendance marked for " ++
         match a !! "name" with
         | Some v => js_to_string v
         | None => "undefined"
         end ++ "!", "success")
  | _ => ("Invalid QR code or already scanned", "error")
  end.


(* ================================================================= *)
(** ** A recursive reading of the merge *)

(** [merge_update] read row by row: the first row whose [id] is
    strictly equal to the message's receives the spread. *)
Fixpoint merge_first (msg : obj) (l : list obj) : list obj :=
  match l with
  | [] => []
  | r :: l' =>
      if strict_eq (r !! "id") (msg !! "id") then (msg ∪ r) :: l'
      else r :: merge_first msg l'
  end.

(* ================================================================= *)
(** ** CSV upload preview ([handleCsvUpload]) *)

Definition cr : ascii := "013"%char.

(** Put [x] in front of the first piece. *)
Definition cons_head (x : ascii) (l : list string) : list string :=
  match l with
  | [] => [String x EmptyString]
  | h :: t => String x h :: t
  end.

(** [s.split(c)] for a one-character separator. *)
Fixpoint split_char (c : ascii) (s : string) : list string :=
  match s with
  | EmptyString => [EmptyString]
  | String x s' =>
      if ascii_dec x c then EmptyString :: split_char c s'
      else cons_head x (split_char c s')
  end.

(** [text.split(/\r?\n/)]: a line feed, or a carriage return directly
    followed by a line feed, separates two lines; a carriage return
    that is not followed by a line feed stays in its line. *)
Fixpoint split_lines (s : string) : list string :=
  match s with
  | EmptyString => [EmptyString]
  | String x s' =>
      if ascii_dec x newline then EmptyString :: split_lines s'
      else if ascii_dec x cr then
        match s' with
        | String y s'' =>
            if ascii_dec y newline then EmptyString :: split_lines s''
            else cons_head x (split_lines s')
        | EmptyString => cons_head x (split_lines s')
        end
      else cons_head x (split_lines s')
  end.

(** The rows kept by [handleCsvUpload]: lines split on commas, only
    those with more than one cell, and the first four of them
    ([rows.slice(0, 4)]) go to [setCsvPreview]. *)
Definition csv_rows (text : string) : list (list string) :=
  List.filter (fun r => Nat.ltb 1 (List.length r))
    (List.map (split_char comma) (split_lines text)).

Definition csv_preview (text : string) : list (list string) :=
  firstn 4 (csv_rows text).

Fixpoint has_char (c : ascii) (s : string) : bool :=
  match s with
  | EmptyString => false
  | String x s' => if ascii_dec x c then true else has_char c s'
  end.

Fixpoint ends_cr (s : string) : bool :=
  match s with
  | EmptyString => false
  | String x EmptyString => if ascii_dec x cr then true else false
  | String _ s' => ends_cr s'
  end.

Definition crlf : string := String cr (String newline EmptyString).
Definition lf : string := String newline EmptyString.

(* ================================================================= *)
(** ** Staff editing ([startEditStaff], [handleUpdateStaff]) *)

(** [`${v}`] and [String(v)], with [undefined] for a missing field. *)
Definition js_template (v : option jv) : string :=
  match v with
  | Some v => js_to_string v
  | None => "undefined"
  end.

(** [if (form.k) updateData.k = form.k;] *)
Definition copy_if_truthy (k : string) (form d : obj) : obj :=
  if truthy (form !! k) then
    match form !! k with
    | Some v => <[k := v]> d
    | None => d
    end
  else d.

Definition update_data (staffFormData : obj) : obj :=
  copy_if_truthy "role" staffFormData
    (copy_if_truthy "password" staffFormData
      (copy_if_truthy "email" staffFormData
        (copy_if_truthy "name" staffFormData ∅))).

Record request := {
  req_method : string;
  req_path : string;
  req_body : obj
}.

(** The request [handleUpdateStaff] sends through [apiCall], or [None]
    when it returns early ([!editingStaff]; a staff object is truthy). *)
Definition handleUpdateStaff (editingStaff : option obj) (staffFormData : obj)
    : option request :=
  match editingStaff with
  | None => None
  | Some st =>
      Some {| req_method := "PUT";
              req_path := "/admin/staff/" ++ js_template (st !! "id");
              req_body := update_data staffFormData |}
  end.

(** A property set to [undefined] reads back as [undefined]. *)
Definition set_field (k : string) (v : option jv) (o : obj) : obj :=
  match v with
  | Some x => <[k := x]> o
  | None => o
  end.

(** [startEditStaff(staff)]: the new [editingStaff] and [staffFormData]. *)
Definition startEditStaff (staff : obj) : option obj * obj :=
  (Some staff,
   set_field "role" (staff !! "role")
     (<["password" := JStr ""]>
       (set_field "email" (staff !! "email")
         (set_field "name" (staff !! "name") ∅)))).

(* ================================================================= *)
(** ** Login, logout and auto-login *)

(** The authentication state of [App], with the two [localStorage]
    entries.  [staffInfo] is stored as [JSON.stringify(data)] and read
    back with [JSON.parse], which gives the same object back; the
    stored entry is kept as that object.  [None] is [null]. *)
Record app_state := {
  view : string;
  login_type : option string;
  role : option jv;
  token : option jv;
  staffInfo : option obj;
  active_tab : string;
  ls_token : option string;
  ls_staffInfo : option obj;
  notification : option (string * string)
}.

Inductive login_response :=
| LoginHttpError (errorText : string)
| LoginOk (data : obj).

Definition privileges_msg : string :=
  "You don't have admin privileges. Please use Staff Login.".

Definition is_admin (v : option jv) : bool := strict_eq v (Some (JStr "admin")).

Definition set_notification (n : string * string) (s : app_state) : app_state :=
  {| view := view s; login_type := login_type s; role := role s;
     token := token s; staffInfo := staffInfo s; active_tab := active_tab s;
     ls_token := ls_token s; ls_staffInfo := ls_staffInfo s;
     notification := Some n |}.

Definition set_view (v : string) (s : app_state) : app_state :=
  {| view := v; login_type := login_type s; role := role s;
     token := token s; staffInfo := staffInfo s; active_tab := active_tab s;
     ls_token := ls_token s; ls_staffInfo := ls_staffInfo s;
     notification := notification s |}.

(** [handleLogin] on the server's answer.  Every exception lands in
    the [catch], which shows [err.message] (never empty here). *)
Definition handleLogin (res : login_response) (s : app_state) : app_state :=
  match res with
  | LoginHttpError t => set_notification ("Login failed: " ++ t, "error") s
  | LoginOk data =>
      let s1 :=
        {| view := view s; login_type := login_type s;
           role := data !! "role"; token := data !! "token";
           staffInfo := Some data; active_tab := active_tab s;
           ls_token := Some (js_template (data !! "token"));
           ls_staffInfo := Some data;
           notification := notification s |} in
      if bool_decide (login_type s = Some "admin") && negb (is_admin (data !! "role"))
      then set_notification (privileges_msg, "error") s1
      else set_notification
             ("Welcome " ++ js_template (data !! "name") ++ "! Logged in as "
                ++ js_template (data !! "role"), "success")
             (set_view (if is_admin (data !! "role") then "admin" else "staff") s1)
  end.

Definition handleLogout (s : app_state) : app_state :=
  {| view := "home"; login_type := None; role := None; token := Some JNull;
     staffInfo := None; active_tab := "dashboard";
     ls_token := None; ls_staffInfo := None;
     notification := Some ("Logged out successfully", "success") |}.

(** A fresh mount of [App] on the stored entries: the initial states
    ([localStorage.getItem("token") || null],
    [JSON.parse(localStorage.getItem("staffInfo") || "null")]), then the
    auto-login effect. *)
Definition mount (ls_t : option string) (ls_s : option obj) : app_state :=
  let tok := match ls_t with
             | Some t => if String.eqb t "" then Some JNull else Some (JStr t)
             | None => Some JNull
             end in
  let base :=
    {| view := "home"; login_type := None; role := None; token := tok;
       staffInfo := ls_s; active_tab := "dashboard";
       ls_token := ls_t; ls_staffInfo := ls_s; notification := None |} in
  match ls_s with
  | Some si =>
      if truthy tok then
        {| view := if is_admin (si !! "role") then "admin" else "staff";
           login_type := None; role := si !! "role"; token := tok;
           staffInfo := ls_s; active_tab := "dashboard";
           ls_token := ls_t; ls_staffInfo := ls_s; notification := None |}
      else base
  | None => base
  end.

Definition reload (s : app_state) : app_state := mount (ls_token s) (ls_staffInfo s).

(* ================================================================= *)
(** ** The [attendance_summary] view *)

(** The columns of [attendees] the view reads. *)
Record attendees_row := {
  ar_id : nat;
  ar_batch : string
}.

(** [attendees a LEFT JOIN attendance att ON a.id = att.attendee_id]:
    each joined row carries the attendee and [att.id] (NULL when the
    attendee has no attendance row). *)
Definition left_join (attendees : list attendees_row) (attendance : list attendance_row)
    : list (attendees_row * option nat) :=
  flat_map (fun a =>
    match List.filter (fun r => Nat.eqb (attendee_id r) (ar_id a)) attendance with
    | [] => [(a, None)]
    | rs => List.map (fun r => (a, Some (att_id r))) rs
    end) attendees.

Definition group_rows (b : string) (j : list (attendees_row * option nat))
    : list (attendees_row * option nat) :=
  List.filter (fun p => String.eqb (ar_batch p.1) b) j.

(** [COUNT(a.id)]: [a.id] is never NULL. *)
Definition total_registered (b : string) (j : list (attendees_row * option nat)) : nat :=
  List.length (group_rows b j).

(** [COUNT(att.id)]: the rows where [att.id] is not NULL. *)
Definition total_attended (b : string) (j : list (attendees_row * option nat)) : nat :=
  List.length (List.filter (fun p => match p.2 with Some _ => true | None => false end)
                 (group_rows b j)).

(** One row per batch ([GROUP BY a.batch]; row order is unspecified,
    the list gives one). *)
Definition attendance_summary (attendees : list attendees_row)
    (attendance : list attendance_row) : list (string * nat * nat) :=
  let j := left_join attendees attendance in
  List.map (fun b => (b, total_registered b j, total_attended b j))
    (List.nodup string_dec (List.map (fun p => ar_batch p.1) j)).

(* ================================================================= *)
(** ** Request headers ([apiCall]) and tab loaders *)

(** The headers [apiCall] sends:
    [{...(token ? { Authorization: `Bearer ${token}` } : {}),
      ...(options.headers || {})}]; the later spread wins. *)
Definition api_headers (token : option jv) (options_headers : option obj) : obj :=
  default ∅ options_headers ∪
  (if truthy token
   then {[ "Authorization" := JStr ("Bearer " ++ js_template token) ]}
   else ∅).

(** The endpoints fetched by the dashboard effect
    ([useEffect] on [activeTab] and [view]). *)
Definition dashboard_loads (activeTab view : string) : list string :=
  if String.eqb activeTab "dashboard" then
    if String.eqb view "admin" then ["/admin/dashboard"; "/attendance/dashboard"]
    else if String.eqb view "staff" then ["/attendance/dashboard"]
    else []
  else [].

(** The endpoints fetched by the staff and logs effect. *)
Definition admin_loads (activeTab view : string) : list string :=
  if String.eqb view "admin" then
    ((if String.eqb activeTab "staff" then ["/admin/staff"] else []) ++
     (if String.eqb activeTab "logs" then ["/admin/audit-logs?limit=50"] else []))%list
  else [].


(* ================================================================= *)
(** ** The [daily_attendance] view *)

(** [attendance att JOIN attendees a ON att.attendee_id = a.id]. *)
Definition daily_join (attendance : list attendance_row) (attendees : list attendees_row)
    : list (attendance_row * attendees_row) :=
  flat_map (fun r =>
    List.map (fun a => (r, a))
      (List.filter (fun a => Nat.eqb (ar_id a) (attendee_id r)) attendees)) attendance.

(** [date, COUNT( * )] per [DATE(att.entry_time)], with [date_of] the
    day of a timestamp in the session's time zone; the [batches]
    column and the row order ([ORDER BY attendance_date DESC]) are not
    modelled. *)
Definition daily_attendance (date_of : Z -> Z) (attendance : list attendance_row)
    (attendees : list attendees_row) : list (Z * nat) :=
  let j := daily_join attendance attendees in
  List.map (fun d =>
      (d, List.length (List.filter (fun p => Z.eqb (date_of (entry_time p.1)) d) j)))
    (List.nodup Z.eq_dec (List.map (fun p => date_of (entry_time p.1)) j)).

(* ================================================================= *)
(** ** Proofs: client reconciler *)

Lemma strict_eq_true (a b : option jv) : strict_eq a b = true <-> a = b.
Proof.
  destruct a as [[| x | x | x]|], b as [[| y | y | y]|]; simpl;
    rewrite ?Bool.eqb_true_iff, ?Z.eqb_eq, ?String.eqb_eq;
    split; intros H; try congruence; try discriminate.
Qed.

Lemma strict_eq_false (a b : option jv) : strict_eq a b = false <-> a <> b.
Proof.
  rewrite <- strict_eq_true. destruct (strict_eq a b); split; congruence.
Qed.

Section find_index.
Context {A : Type} (p : A -> bool).

Lemma find_index_Some (l : list A) (i : nat) :
  find_index p l = Some i ->
  (exists x, l !! i = Some x /\ p x = true) /\
  (forall j y, j < i -> l !! j = Some y -> p y = false).
Proof.
  revert i. induction l as [|x l IH]; intros i H; simpl in H; [discriminate|].
  destruct (p x) eqn:Hx.
  - injection H as <-. split; [exists x; auto|]. intros j y Hj. lia.
  - destruct (find_index p l) as [k|] eqn:Hk; simpl in H; [|discriminate].
    injection H as <-. destruct (IH k eq_refl) as [[y [Hy Hpy]] Hbefore].
    split; [exists y; auto|].
    intros [|j] z Hj Hz; simpl in Hz; [congruence|].
    apply (Hbefore j); [lia|exact Hz].
Qed.

Lemma find_index_None (l : list A) :
  find_index p l = None <-> Forall (fun x => p x = false) l.
Proof.
  induction l as [|x l IH]; simpl; [split; auto|].
  rewrite Forall_cons. destruct (p x) eqn:Hx.
  - split; [discriminate|]. intros [H _]; discriminate.
  - destruct (find_index p l); simpl; rewrite <- IH; split; intuition congruence.
Qed.

Lemma find_index_insert (l : list A) (i : nat) (x : A) :
  find_index p l = Some i -> p x = true ->
  find_index p (<[i := x]> l) = Some i.
Proof.
  revert i. induction l as [|y l IH]; intros i H Hx; simpl in H; [discriminate|].
  destruct (p y) eqn:Hy.
  - injection H as <-. simpl. rewrite Hx. reflexivity.
  - destruct (find_index p l) as [k|] eqn:Hk; simpl in H; [|discriminate].
    injection H as <-. simpl. rewrite Hy, (IH k eq_refl Hx). reflexivity.
Qed.
End find_index.

(** After the merge the updated row carries the message's [id]. *)
Lemma merged_id (msg row : obj) :
  strict_eq (row !! "id") (msg !! "id") = true ->
  (msg ∪ row) !! "id" = msg !! "id".
Proof.
  intros H. apply strict_eq_true in H. rewrite lookup_union, H.
  destruct (msg !! "id"); reflexivity.
Qed.

Lemma merge_update_idem (msg : obj) (prev : list obj) :
  merge_update msg (merge_update msg prev) = merge_update msg prev.
Proof.
  unfold merge_update at 2 3.
  destruct (find_index _ prev) as [idx|] eqn:Hf;
    [|unfold merge_update; rewrite Hf; reflexivity].
  destruct (find_index_Some _ _ _ Hf) as [[row [Hrow Hp]] _].
  rewrite Hrow. unfold merge_update.
  assert (Hidx : idx < length prev) by (apply lookup_lt_is_Some; eauto).
  rewrite (find_index_insert _ _ _ _ Hf);
    [|apply strict_eq_true, merged_id, Hp].
  rewrite list_lookup_insert_eq by exact Hidx.
  rewrite (assoc_L (∪)), (idemp_L (∪)).
  apply list_insert_insert_eq.
Qed.

(** C3: an event whose attendee identity is absent from the current view
    leaves the view unchanged; events never insert new identities. *)
Theorem on_message_absent_identity (prev : list obj) (msg : obj) :
  Forall (fun r : obj => r !! "id" <> msg !! "id") prev ->
  on_message (Some (PObj msg)) prev = prev.
Proof.
  intros Habs. simpl.
  destruct (strict_eq _ _); [reflexivity|].
  destruct (truthy _); [|reflexivity].
  unfold merge_update.
  replace (find_index _ prev) with (@None nat); [reflexivity|].
  symmetry. apply find_index_None.
  eapply Forall_impl; [exact Habs|]. intros r Hr. apply strict_eq_false, Hr.
Qed.

Lemma on_message_absent_identity_witness :
  Forall (fun r : obj => r !! "id" <> ({[ "id" := JStr "z" ]} : obj) !! "id")
    [{[ "id" := JStr "a" ]}; {[ "id" := JStr "b" ]}] /\
  on_message (Some (PObj {[ "id" := JStr "z" ]}))
    [{[ "id" := JStr "a" ]}; {[ "id" := JStr "b" ]}]
  = [{[ "id" := JStr "a" ]}; {[ "id" := JStr "b" ]}].
Proof.
  assert (H : Forall (fun r : obj => r !! "id" <> ({[ "id" := JStr "z" ]} : obj) !! "id")
    [{[ "id" := JStr "a" ]}; {[ "id" := JStr "b" ]}])
    by (repeat constructor; vm_compute; discriminate).
  split; [exact H | apply on_message_absent_identity; exact H].
Defined.

(** C4: applying the same stream event twice yields the same view as
    applying it once. *)
Theorem on_message_idempotent (payload : option parsed) (prev : list obj) :
  on_message payload (on_message payload prev) = on_message payload prev.
Proof.
  destruct payload as [[msg | v]|]; try reflexivity.
  unfold on_message.
  destruct (strict_eq (msg !! "type") _); [reflexivity|].
  destruct (truthy (msg !! "id")); [|reflexivity].
  apply merge_update_idem.
Qed.

(** C5: merging an event for identity X changes at most the row whose id
    equals X; in that row, the fields absent from the event keep their
    values; the number of rows is unchanged. *)
Theorem on_message_frame (prev : list obj) (msg : obj) :
  length (on_message (Some (PObj msg)) prev) = length prev /\
  (forall j (r : obj), prev !! j = Some r -> r !! "id" <> msg !! "id" ->
     on_message (Some (PObj msg)) prev !! j = Some r) /\
  (forall j (r r' : obj) k, prev !! j = Some r ->
     on_message (Some (PObj msg)) prev !! j = Some r' ->
     msg !! k = None -> r' !! k = r !! k).
Proof.
  simpl.
  destruct (strict_eq (msg !! "type") _);
    [split; [reflexivity|split; [auto|congruence]]|].
  destruct (truthy (msg !! "id"));
    [|split; [reflexivity|split; [auto|congruence]]].
  unfold merge_update.
  destruct (find_index _ prev) as [idx|] eqn:Hf;
    [|split; [reflexivity|split; [auto|congruence]]].
  destruct (find_index_Some _ _ _ Hf) as [[row [Hrow Hp]] _].
  rewrite Hrow. split; [apply length_insert|]. split.
  - intros j r Hj Hne. destruct (decide (j = idx)) as [->|Hneq].
    + rewrite Hrow in Hj. injection Hj as <-.
      apply strict_eq_true in Hp. contradiction.
    + rewrite list_lookup_insert_ne by congruence. exact Hj.
  - intros j r r' k Hj Hj' Hk. destruct (decide (j = idx)) as [->|Hneq].
    + rewrite list_lookup_insert_eq in Hj' by (apply lookup_lt_is_Some; eauto).
      rewrite Hrow in Hj. injection Hj as <-. injection Hj' as <-.
      apply lookup_union_r, Hk.
    + rewrite list_lookup_insert_ne in Hj' by congruence. congruence.
Qed.

Lemma on_message_frame_witness :
  ([{[ "id" := JStr "a" ]}; {[ "id" := JStr "b" ]}] : list obj) !! 1
    = Some {[ "id" := JStr "b" ]} /\
  ({[ "id" := JStr "b" ]} : obj) !! "id"
    <> (<[ "checked_in" := JBool true ]> {[ "id" := JStr "a" ]} : obj) !! "id" /\
  on_message (Some (PObj (<[ "checked_in" := JBool true ]> {[ "id" := JStr "a" ]})))
    [{[ "id" := JStr "a" ]}; {[ "id" := JStr "b" ]}] !! 1
  = Some {[ "id" := JStr "b" ]}.
Proof.
  assert (H1 : ([{[ "id" := JStr "a" ]}; {[ "id" := JStr "b" ]}] : list obj) !! 1
    = Some {[ "id" := JStr "b" ]}) by reflexivity.
  assert (H2 : ({[ "id" := JStr "b" ]} : obj) !! "id"
    <> (<[ "checked_in" := JBool true ]> {[ "id" := JStr "a" ]} : obj) !! "id")
    by (vm_compute; discriminate).
  split; [exact H1|split; [exact H2|]].
  exact (proj1 (proj2 (on_message_frame _ _)) 1 _ H1 H2).
Defined.

(** C8: stream messages that are not attendee updates are no-ops: an
    undecodable payload, a decoded primitive, the [connected] control
    message and a message without a truthy [id]. *)
Theorem on_message_ignores_non_updates (prev : list obj) (m : obj) (v : jv) :
  on_message None prev = prev /\
  on_message (Some (PPrim v)) prev = prev /\
  on_message (Some (PObj (<["type" := JStr "connected"]> m))) prev = prev /\
  (truthy (m !! "id") = false -> on_message (Some (PObj m)) prev = prev).
Proof.
  split; [reflexivity|]. split; [reflexivity|]. split.
  - simpl. rewrite lookup_insert_eq. reflexivity.
  - intros H. simpl. rewrite H. destruct (strict_eq _ _); reflexivity.
Qed.

Lemma on_message_ignores_non_updates_witness :
  truthy (({[ "name" := JStr "Asha" ]} : obj) !! "id") = false /\
  on_message (Some (PObj {[ "name" := JStr "Asha" ]})) [{[ "id" := JStr "a" ]}]
  = [{[ "id" := JStr "a" ]}].
Proof.
  assert (H : truthy (({[ "name" := JStr "Asha" ]} : obj) !! "id") = false)
    by reflexivity.
  split; [exact H|].
  exact (proj2 (proj2 (proj2
    (on_message_ignores_non_updates [{[ "id" := JStr "a" ]}] _ JNull))) H).
Defined.

(* ================================================================= *)
(** ** Proofs: attendance storage *)

Lemma exec_ok (t t' : list attendance_row) (s : stmt) :
  exec t s = inl t' -> t' = candidate t s /\
    NoDup (List.map att_id t') /\ NoDup (List.map attendee_id t').
Proof.
  unfold exec. intros H.
  case_bool_decide as Hpk; [|discriminate].
  case_bool_decide as Hu; [|discriminate].
  injection H as <-. auto.
Qed.

Lemma step_unique (t : list attendance_row) (s : stmt) :
  NoDup (List.map attendee_id t) -> NoDup (List.map attendee_id (step t s)).
Proof.
  intros Ht. unfold step. destruct (exec t s) as [t'|e] eqn:He; [|exact Ht].
  apply (exec_ok _ _ _ He).
Qed.

Lemma run_unique (t : list attendance_row) (ss : list stmt) :
  NoDup (List.map attendee_id t) -> NoDup (List.map attendee_id (run t ss)).
Proof.
  unfold run. revert t. induction ss as [|s ss IH]; intros t Ht; simpl;
    [exact Ht|]. apply IH, step_unique, Ht.
Qed.

Lemma exec_insert_dup (t : list attendance_row) (r : attendance_row) :
  attendee_id r ∈ List.map attendee_id t -> exists e, exec t (SInsert r) = inr e.
Proof.
  intros Hin. unfold exec, candidate.
  case_bool_decide as Hpk; [|eauto].
  case_bool_decide as Hu; [|eauto].
  exfalso. rewrite List.map_app in Hu. apply NoDup_app in Hu.
  destruct Hu as [_ [Hdis _]]. apply (Hdis _ Hin). simpl. left.
Qed.

(** C1: the [attendance] table never holds two rows for one attendee:
    every statement preserves uniqueness of [attendee_id], every table
    reachable from the empty one satisfies it, and an insert for an
    attendee already present fails and leaves the table unchanged. *)
Theorem attendance_at_most_one_per_attendee :
  (forall (t : list attendance_row) (s : stmt),
     NoDup (List.map attendee_id t) -> NoDup (List.map attendee_id (step t s))) /\
  (forall ss : list stmt, NoDup (List.map attendee_id (run [] ss))) /\
  (forall (t : list attendance_row) (r : attendance_row),
     attendee_id r ∈ List.map attendee_id t ->
     (exists e, exec t (SInsert r) = inr e) /\ step t (SInsert r) = t).
Proof.
  split; [exact step_unique|]. split.
  - intros ss. apply run_unique. constructor.
  - intros t r Hin. destruct (exec_insert_dup t r Hin) as [e He].
    split; [eauto|]. unfold step. rewrite He. reflexivity.
Qed.

Lemma attendance_at_most_one_per_attendee_witness :
  attendee_id {| att_id := 2; attendee_id := 7; entry_time := 20 |}
    ∈ List.map attendee_id [{| att_id := 1; attendee_id := 7; entry_time := 10 |}] /\
  step [{| att_id := 1; attendee_id := 7; entry_time := 10 |}]
       (SInsert {| att_id := 2; attendee_id := 7; entry_time := 20 |})
  = [{| att_id := 1; attendee_id := 7; entry_time := 10 |}].
Proof.
  assert (H : attendee_id {| att_id := 2; attendee_id := 7; entry_time := 20 |}
    ∈ List.map attendee_id [{| att_id := 1; attendee_id := 7; entry_time := 10 |}])
    by (simpl; left).
  split; [exact H|].
  exact (proj2 (proj2 (proj2 attendance_at_most_one_per_attendee) _ _ H)).
Defined.

(* ================================================================= *)
(** ** Proofs: check-in registrar *)

Lemma existing_entry_time_app (t : list attendance_row) (r : attendance_row) :
  attendee_id r ∉ List.map attendee_id t ->
  existing_entry_time (t ++ [r]) (attendee_id r) = Some (entry_time r).
Proof.
  unfold existing_entry_time. induction t as [|x t IH]; intros Hn; simpl.
  - rewrite Nat.eqb_refl. reflexivity.
  - simpl in Hn. rewrite elem_of_cons in Hn.
    destruct (Nat.eqb (attendee_id x) (attendee_id r)) eqn:E.
    + apply Nat.eqb_eq in E. exfalso. apply Hn. left. congruence.
    + apply IH. intros Hin. apply Hn. right. exact Hin.
Qed.

Lemma exec_insert_fresh (t : list attendance_row) (r : attendance_row) :
  NoDup (List.map att_id t) -> NoDup (List.map attendee_id t) ->
  att_id r ∉ List.map att_id t -> attendee_id r ∉ List.map attendee_id t ->
  exec t (SInsert r) = inl (t ++ [r])%list.
Proof.
  intros Hpk Hu Hf Hg. unfold exec, candidate. rewrite !List.map_app.
  rewrite !bool_decide_true; [reflexivity| |];
    apply NoDup_app; (split; [assumption|split; [|apply NoDup_singleton]]);
    intros x Hx Hx'; apply list_elem_of_singleton in Hx'; subst; contradiction.
Qed.

Lemma exec_insert_conflict (t : list attendance_row) (r : attendance_row) :
  NoDup (List.map att_id t) -> att_id r ∉ List.map att_id t ->
  attendee_id r ∈ List.map attendee_id t ->
  exec t (SInsert r) = inr UniqueViolation.
Proof.
  intros Hpk Hf Hin. unfold exec, candidate.
  rewrite bool_decide_true.
  - rewrite bool_decide_false; [reflexivity|].
    rewrite List.map_app. intros Hu. apply NoDup_app in Hu.
    destruct Hu as [_ [Hdis _]]. apply (Hdis _ Hin). simpl. left.
  - rewrite List.map_app. apply NoDup_app.
    split; [assumption|split; [|apply NoDup_singleton]].
    intros x Hx Hx'. apply list_elem_of_singleton in Hx'. subst. contradiction.
Qed.

Lemma check_in_all_losers (attendees : list attendee) (t : list attendance_row)
    (tok : string) (a : attendee) (n0 : Z) (calls : list (nat * Z)) :
  find_by_token attendees tok = Some a ->
  NoDup (List.map att_id t) ->
  a_id a ∈ List.map attendee_id t ->
  existing_entry_time t (a_id a) = Some n0 ->
  Forall (fun c => fst c ∉ List.map att_id t) calls ->
  check_in_all attendees t tok calls = repeat (AlreadyCheckedIn n0) (length calls).
Proof.
  intros Hfind Hpk Hin Het. induction calls as [|[u n] cs IH]; intros Hf;
    [reflexivity|].
  apply Forall_cons in Hf as [Hu Hcs]. simpl.
  unfold check_in. rewrite Hfind.
  rewrite exec_insert_conflict by assumption. rewrite Het.
  f_equal. apply IH, Hcs.
Qed.

(** C2 (spec-modelled): concurrent check-ins with one token, for an
    attendee not yet checked in: the call whose insert reaches the
    storage first succeeds, every other call returns [AlreadyCheckedIn]
    with the winner's entry time; so exactly one call succeeds. *)
Theorem concurrent_check_in_single_winner (attendees : list attendee)
    (t : list attendance_row) (tok : string) (a : attendee)
    (u0 : nat) (n0 : Z) (rest : list (nat * Z)) :
  find_by_token attendees tok = Some a ->
  NoDup (List.map att_id t) ->
  NoDup (List.map attendee_id t) ->
  a_id a ∉ List.map attendee_id t ->
  NoDup (List.map fst ((u0, n0) :: rest)) ->
  Forall (fun c => fst c ∉ List.map att_id t) ((u0, n0) :: rest) ->
  check_in_all attendees t tok ((u0, n0) :: rest)
  = CheckedIn a n0 :: repeat (AlreadyCheckedIn n0) (length rest).
Proof.
  intros Hfind Hpk Hu Hnone Hnd Hfresh.
  apply Forall_cons in Hfresh as [Hf0 Hfr].
  simpl in Hnd. apply NoDup_cons in Hnd as [Hu0 _].
  set (r0 := {| att_id := u0; attendee_id := a_id a; entry_time := n0 |}).
  simpl. unfold check_in at 1. rewrite Hfind.
  change {| att_id := u0; attendee_id := a_id a; entry_time := n0 |} with r0.
  rewrite (exec_insert_fresh t r0) by assumption.
  f_equal. apply (check_in_all_losers _ _ _ a); [exact Hfind| | | |].
  - rewrite List.map_app. apply NoDup_app.
    split; [assumption|split; [|apply NoDup_singleton]].
    intros x Hx Hx'. apply list_elem_of_singleton in Hx'. subst. contradiction.
  - rewrite List.map_app. apply elem_of_app. right. simpl. left.
  - exact (existing_entry_time_app t r0 Hnone).
  - apply Forall_forall. intros [u n] Hc. simpl.
    rewrite List.map_app, elem_of_app. simpl.
    rewrite list_elem_of_singleton. intros [Hin|Heq].
    + rewrite Forall_forall in Hfr. exact (Hfr _ Hc Hin).
    + simpl in Heq. subst u. apply Hu0.
      apply list_elem_of_In, in_map_iff. exists (u0, n). split; [reflexivity|].
      apply list_elem_of_In in Hc. exact Hc.
Qed.

Lemma concurrent_check_in_single_winner_witness :
  find_by_token [{| a_id := 1; a_name := "Asha"; a_batch := "DYP";
                    qr_data := "T-999" |}] "T-999"
    = Some {| a_id := 1; a_name := "Asha"; a_batch := "DYP"; qr_data := "T-999" |} /\
  check_in_all [{| a_id := 1; a_name := "Asha"; a_batch := "DYP";
                   qr_data := "T-999" |}] [] "T-999" [(10, 100%Z); (11, 105%Z)]
  = [CheckedIn {| a_id := 1; a_name := "Asha"; a_batch := "DYP"; qr_data := "T-999" |} 100;
     AlreadyCheckedIn 100].
Proof.
  assert (Hf : find_by_token [{| a_id := 1; a_name := "Asha"; a_batch := "DYP";
                    qr_data := "T-999" |}] "T-999"
    = Some {| a_id := 1; a_name := "Asha"; a_batch := "DYP"; qr_data := "T-999" |})
    by reflexivity.
  split; [exact Hf|].
  apply (concurrent_check_in_single_winner _ [] "T-999" _ 10 100 [(11, 105%Z)] Hf).
  - constructor.
  - constructor.
  - apply not_elem_of_nil.
  - simpl. repeat constructor; simpl; rewrite ?elem_of_cons; intuition (try lia);
      eapply not_elem_of_nil; eauto.
  - repeat constructor; apply not_elem_of_nil.
Defined.

(* ================================================================= *)
(** ** Proofs: live view search *)

Lemma trim_start_all_ws (s : string) :
  Forall (fun c => is_ws c = true) (list_ascii_of_string s) ->
  trim_start s = EmptyString.
Proof.
  induction s as [|c s IH]; simpl; intros H; [reflexivity|].
  apply Forall_cons in H as [Hc Hs]. rewrite Hc. apply IH, Hs.
Qed.

Lemma trim_start_non_ws (s : string) :
  Exists (fun c => is_ws c = false) (list_ascii_of_string s) ->
  exists c r, trim_start s = String c r /\ is_ws c = false.
Proof.
  induction s as [|c s IH]; simpl; intros H; [inversion H|].
  destruct (is_ws c) eqn:Hc.
  - apply Exists_cons in H as [H|H]; [congruence|]. apply IH, H.
  - eauto.
Qed.

Lemma trim_non_ws (s : string) :
  Exists (fun c => is_ws c = false) (list_ascii_of_string s) ->
  String.eqb (trim s) "" = false.
Proof.
  intros H. destruct (trim_start_non_ws s H) as [c [r [Hs Hc]]].
  unfold trim. rewrite Hs. simpl. rewrite Hc. reflexivity.
Qed.

Lemma prefix_to_lower (q s : string) :
  String.prefix (to_lower q) (to_lower s) = ci_prefix q s.
Proof.
  revert s. induction q as [|c q IH]; intros s; [destruct s; reflexivity|].
  destruct s as [|d s]; [reflexivity|]. simpl.
  destruct (ascii_dec (to_lower_char c) (to_lower_char d)) as [E|E].
  - rewrite E, Ascii.eqb_refl. apply IH.
  - apply Ascii.eqb_neq in E. rewrite E. reflexivity.
Qed.

(** The code's test (lower-case both, then [includes]) is the spec's
    case-insensitive substring test. *)
Lemma includes_to_lower (q s : string) :
  includes (to_lower q) (to_lower s) = ci_contains q s.
Proof.
  induction s as [|d s IH].
  - destruct q; reflexivity.
  - change (String.prefix (to_lower q) (to_lower (String d s))
              || includes (to_lower q) (to_lower s)
            = ci_prefix q (String d s) || ci_contains q s).
    rewrite prefix_to_lower, IH. reflexivity.
Qed.

Lemma lower_or_empty_text (v : option jv) :
  text_field v -> lower_or_empty v = Some (to_lower (field_text v)).
Proof.
  intros [->|[->|[s ->]]]; try reflexivity.
  unfold lower_or_empty. simpl.
  destruct (String.eqb s "") eqn:E; simpl; [|reflexivity].
  apply String.eqb_eq in E. subst. reflexivity.
Qed.

Lemma filter_opt_total {A} (p : A -> option bool) (f : A -> bool) (l : list A) :
  Forall (fun x => p x = Some (f x)) l ->
  filter_opt p l = Some (List.filter f l).
Proof.
  induction l as [|x l IH]; intros H; [reflexivity|].
  apply Forall_cons in H as [Hx Hl]. simpl. rewrite Hx, (IH Hl).
  simpl. destruct (f x); reflexivity.
Qed.

(** C9: the search filter is a view transform over [liveAttendees]
    (its result is built anew from the input rows, which it never
    writes): for an empty or white-space-only query it keeps every row;
    otherwise, on rows whose [name] and [mobile] are text, it keeps, in
    their order, exactly the rows whose name or mobile contains the
    query ignoring case. *)
Theorem filteredLive_spec (rows : list obj) (q : string) :
  (Forall (fun c => is_ws c = true) (list_ascii_of_string q) ->
   filteredLive rows q = Some rows) /\
  (Exists (fun c => is_ws c = false) (list_ascii_of_string q) ->
   Forall (fun a : obj => text_field (a !! "name") /\ text_field (a !! "mobile")) rows ->
   filteredLive rows q = Some (List.filter (row_matches q) rows)).
Proof.
  split.
  - intros Hws. unfold filteredLive.
    rewrite <- (List.filter_true rows) at 2.
    apply filter_opt_total, Forall_forall. intros a _.
    unfold live_pred, trim. rewrite (trim_start_all_ws q Hws). reflexivity.
  - intros Hne Htext. unfold filteredLive. apply filter_opt_total.
    eapply Forall_impl; [exact Htext|]. intros a [Hn Hm].
    unfold live_pred. rewrite (trim_non_ws q Hne).
    rewrite (lower_or_empty_text _ Hn), includes_to_lower.
    unfold row_matches. destruct (ci_contains q _); [reflexivity|].
    rewrite (lower_or_empty_text _ Hm), includes_to_lower. reflexivity.
Qed.

Lemma filteredLive_spec_witness :
  Exists (fun c => is_ws c = false) (list_ascii_of_string " RAO") /\
  Forall (fun a : obj => text_field (a !! "name") /\ text_field (a !! "mobile"))
    [{[ "name" := JStr "Asha Rao" ]}; <["mobile" := JStr "98"]> {[ "name" := JStr "Ravi" ]}] /\
  filteredLive
    [{[ "name" := JStr "Asha Rao" ]}; <["mobile" := JStr "98"]> {[ "name" := JStr "Ravi" ]}]
    " RAO"
  = Some [{[ "name" := JStr "Asha Rao" ]}].
Proof.
  assert (H1 : Exists (fun c => is_ws c = false) (list_ascii_of_string " RAO"))
    by (apply Exists_cons_tl, Exists_cons_hd; reflexivity).
  assert (H2 : Forall (fun a : obj => text_field (a !! "name") /\ text_field (a !! "mobile"))
    [{[ "name" := JStr "Asha Rao" ]}; <["mobile" := JStr "98"]> {[ "name" := JStr "Ravi" ]}]).
  { constructor; [|constructor; [|constructor]];
      split; unfold text_field; vm_compute;
      first [left; reflexivity | right; right; eexists; reflexivity]. }
  split; [exact H1|]. split; [exact H2|].
  exact (proj2 (filteredLive_spec _ _) H1 H2).
Defined.

(* ================================================================= *)
(** ** Proofs: CSV export *)

Lemma str_app_cons (c : ascii) (s t : string) :
  (String c s ++ t) = String c (s ++ t).
Proof. reflexivity. Qed.

Lemma str_app_nil_r (s : string) : (s ++ EmptyString) = s.
Proof.
  induction s as [|c s IH]; [reflexivity|]. rewrite str_app_cons, IH. reflexivity.
Qed.

Lemma str_app_assoc (a b c : string) : ((a ++ b) ++ c) = (a ++ (b ++ c)).
Proof.
  induction a as [|x a IH]; [reflexivity|]. rewrite !str_app_cons, IH. reflexivity.
Qed.

Lemma join_cons_cons (sep x y : string) (l : list string) :
  join sep (x :: y :: l) = (x ++ sep ++ join sep (y :: l)).
Proof. reflexivity. Qed.

Lemma lex_escaped (x f : string) (record : list string)
    (records : list (list string)) (X : string) :
  lex InQuoted f record records (escape_quotes x ++ String dquote X)
  = lex QuoteSeen (f ++ x) record records X.
Proof.
  revert f. induction x as [|c x IH]; intros f.
  - simpl. rewrite str_app_nil_r. reflexivity.
  - simpl. destruct (Ascii.eqb c dquote) eqn:Hc.
    + apply Ascii.eqb_eq in Hc. subst c. rewrite !str_app_cons. simpl.
      rewrite IH, str_app_assoc. reflexivity.
    + rewrite str_app_cons. simpl. rewrite Hc, IH, str_app_assoc. reflexivity.
Qed.

Lemma lex_cell (v : jv) (record : list string) (records : list (list string))
    (X : string) :
  lex FieldStart EmptyString record records (quote_cell v ++ X)
  = lex QuoteSeen (js_to_string v) record records X.
Proof.
  unfold quote_cell. rewrite str_app_cons, str_app_assoc. simpl.
  apply lex_escaped.
Qed.

Lemma lex_line (cs : list jv) (c : jv) (record : list string)
    (records : list (list string)) (X : string) :
  (X = EmptyString \/ exists t, X = String newline t) ->
  lex FieldStart EmptyString record records (csv_line (c :: cs) ++ X)
  = match X with
    | EmptyString =>
        Some (records ++ [record ++ List.map js_to_string (c :: cs)])%list
    | String _ t =>
        lex FieldStart EmptyString []
          (records ++ [record ++ List.map js_to_string (c :: cs)])%list t
    end.
Proof.
  intros HX. revert c record. induction cs as [|c' cs IH]; intros c record.
  - change (csv_line [c]) with (quote_cell c). rewrite lex_cell.
    destruct HX as [->|[t ->]]; reflexivity.
  - unfold csv_line. cbn [List.map]. rewrite join_cons_cons.
    change (join "," (quote_cell c' :: List.map quote_cell cs)) with (csv_line (c' :: cs)).
    rewrite str_app_assoc, lex_cell.
    change ("," ++ csv_line (c' :: cs))%string
      with (String comma (csv_line (c' :: cs))).
    rewrite str_app_cons. simpl. rewrite IH.
    rewrite <- app_assoc. reflexivity.
Qed.

Lemma lex_lines (rows : list (list jv)) (l : list jv)
    (records : list (list string)) :
  Forall (fun r => r <> []) (l :: rows) ->
  lex FieldStart EmptyString [] records (csv_text (l :: rows))
  = Some (records ++ List.map (List.map js_to_string) (l :: rows))%list.
Proof.
  revert l records. induction rows as [|l' rows IH]; intros l records Hne;
    apply Forall_cons in Hne as [Hl Hrows];
    (destruct l as [|c cs]; [congruence|]).
  - change (csv_text [c :: cs]) with (csv_line (c :: cs)).
    rewrite <- (str_app_nil_r (csv_line (c :: cs))).
    rewrite lex_line by auto. reflexivity.
  - unfold csv_text. cbn [List.map]. rewrite join_cons_cons.
    change (join (String newline EmptyString) (csv_line l' :: List.map csv_line rows))
      with (csv_text (l' :: rows)).
    change (String newline EmptyString ++ csv_text (l' :: rows))%string
      with (String newline (csv_text (l' :: rows))).
    rewrite lex_line by eauto. rewrite IH by exact Hrows.
    rewrite <- app_assoc. reflexivity.
Qed.

Lemma status_cell (date_str : jv -> string) (a : obj) :
  nth_error (csv_cells date_str a) 4
  = Some (JStr (if bool_decide (a !! "attendance_status" = Some (JStr "P"))
                then "Present" else "Absent")).
Proof.
  simpl. destruct (strict_eq _ _) eqn:E.
  - apply strict_eq_true in E. rewrite bool_decide_true by exact E. reflexivity.
  - apply strict_eq_false in E. rewrite bool_decide_false by exact E. reflexivity.
Qed.

(** C10: the exported text serialises the filtered view, never the full
    list: a header record then one record per filtered row in view
    order, each cell quoted with its quotes doubled, so that a CSV
    reader gets back exactly the cells; the Status cell is [Present]
    exactly when [attendance_status] is the string [P]. *)
Theorem export_csv_spec (date_str : jv -> string) (rows : list obj)
    (q : string) (fl : list obj) :
  filteredLive rows q = Some fl ->
  exists text,
    export_csv date_str rows q = Some text /\
    text = csv_text (csv_header :: List.map (csv_cells date_str) fl) /\
    parse_csv text
      = Some (List.map (List.map js_to_string)
                (csv_header :: List.map (csv_cells date_str) fl)) /\
    Forall (fun a : obj =>
      nth_error (csv_cells date_str a) 4
      = Some (JStr (if bool_decide (a !! "attendance_status" = Some (JStr "P"))
                    then "Present" else "Absent"))) fl.
Proof.
  intros Hf. eexists. split; [unfold export_csv; rewrite Hf; reflexivity|].
  split; [reflexivity|]. split.
  - unfold parse_csv. rewrite lex_lines; [reflexivity|].
    constructor; [discriminate|].
    apply Forall_forall. intros r Hr. apply list_elem_of_In, in_map_iff in Hr.
    destruct Hr as [a [<- _]]. discriminate.
  - apply Forall_forall. intros a _. apply status_cell.
Qed.

Lemma export_csv_spec_witness :
  filteredLive [<["attendance_status" := JStr "P"]> {[ "name" := JStr "Asha" ]}] ""
    = Some [<["attendance_status" := JStr "P"]> {[ "name" := JStr "Asha" ]}] /\
  parse_csv (csv_text (csv_header :: List.map (csv_cells (fun _ => "DATE"))
     [<["attendance_status" := JStr "P"]> {[ "name" := JStr "Asha" ]}]))
  = Some [["Name"; "Email"; "Mobile"; "Batch"; "Status"; "Entry Time";
           "QR Email"; "QR WhatsApp"; "Entry Email"; "Entry WhatsApp"];
          ["Asha"; ""; ""; ""; "Present"; ""; ""; ""; ""; ""]].
Proof.
  assert (H : filteredLive [<["attendance_status" := JStr "P"]> {[ "name" := JStr "Asha" ]}] ""
    = Some [<["attendance_status" := JStr "P"]> {[ "name" := JStr "Asha" ]}])
    by reflexivity.
  split; [exact H|].
  destruct (export_csv_spec (fun _ => "DATE") _ _ _ H) as [text [_ [<- [Hp _]]]].
  rewrite Hp. vm_compute. reflexivity.
Defined.

(* ================================================================= *)
(** ** Proofs: stream reconnection and scan messages *)

(** The first subscription of the live tab follows a snapshot. *)
Lemma enter_live_tab_snapshot_first (tok : string) (es : bool) :
  snapshot_before_subscribe (enter_live_tab (Some tok) es) = true.
Proof. destruct es; reflexivity. Qed.

(** C6: after a stream failure the reconnection re-subscribes without
    pulling a snapshot: [es.onerror] schedules [connectLiveStream], which
    opens a new [EventSource] and never calls [loadLiveAttendees]. *)
Theorem reconnection_skips_snapshot (tok : string) (es : bool) :
  (FetchSnapshot ∉ reconnection (Some tok) es) /\
  (OpenStream ∈ reconnection (Some tok) es) /\
  snapshot_before_subscribe (reconnection (Some tok) es) = false.
Proof.
  destruct es; (split; [|split]);
    try (apply (bool_decide_unpack _); reflexivity); reflexivity.
Qed.

(** C7: the message of a failed scan does not depend on the failure: an
    unknown code, an attendee already checked in and a server or network
    failure all show the same text. *)
Theorem scan_failure_message_uniform (s1 s2 : nat) (b1 b2 : string) :
  scan_notification (ScanHttpError s1 b1) = scan_notification (ScanHttpError s2 b2) /\
  scan_notification (ScanHttpError s1 b1) = scan_notification ScanNetworkError /\
  scan_notification ScanNetworkError = ("Invalid QR code or already scanned", "error").
Proof. split; [|split]; reflexivity. Qed.

(** C7, refuted at the responses the backend gives for an unknown code
    ([404]), a repeated scan ([409]) and a storage failure ([500]). *)
Lemma scan_failure_message_not_distinct :
  fst (scan_notification (ScanHttpError 404 "not_found"))
  = fst (scan_notification (ScanHttpError 409 "already_checked_in")) /\
  fst (scan_notification (ScanHttpError 409 "already_checked_in"))
  = fst (scan_notification (ScanHttpError 500 "internal error")).
Proof. split; reflexivity. Qed.

(* ================================================================= *)
(** ** Further properties: composition of stream updates *)

Lemma merge_update_first (msg : obj) (l : list obj) :
  merge_update msg l = merge_first msg l.
Proof.
  induction l as [|r l IH]; [reflexivity|].
  unfold merge_update in *. simpl.
  destruct (strict_eq (r !! "id") (msg !! "id")) eqn:Hr; [reflexivity|].
  destruct (find_index _ l) as [k|] eqn:Hk; simpl.
  - destruct (l !! k) eqn:Hl; rewrite <- IH; reflexivity.
  - rewrite <- IH. reflexivity.
Qed.

Lemma merge_first_ids (msg : obj) (l : list obj) :
  List.map (fun r : obj => r !! "id") (merge_first msg l)
  = List.map (fun r : obj => r !! "id") l.
Proof.
  induction l as [|r l IH]; [reflexivity|]. simpl.
  destruct (strict_eq (r !! "id") (msg !! "id")) eqn:Hr; simpl.
  - rewrite merged_id by exact Hr. apply strict_eq_true in Hr. congruence.
  - rewrite IH. reflexivity.
Qed.

Lemma merge_first_absent (msg : obj) (l : list obj) :
  (msg !! "id") ∉ List.map (fun r : obj => r !! "id") l ->
  merge_first msg l = l.
Proof.
  induction l as [|r l IH]; intros Hn; [reflexivity|]. simpl in *.
  rewrite elem_of_cons in Hn.
  destruct (strict_eq (r !! "id") (msg !! "id")) eqn:Hr.
  - apply strict_eq_true in Hr. exfalso. apply Hn. left. congruence.
  - rewrite IH; [reflexivity|]. intros H. apply Hn. right. exact H.
Qed.

(** Every stream message keeps the sequence of row identities: same
    length, same ids, same order. *)
Theorem on_message_preserves_ids (payload : option parsed) (prev : list obj) :
  List.map (fun r : obj => r !! "id") (on_message payload prev)
  = List.map (fun r : obj => r !! "id") prev.
Proof.
  destruct payload as [[msg|v]|]; try reflexivity. simpl.
  destruct (strict_eq _ _); [reflexivity|].
  destruct (truthy _); [|reflexivity].
  rewrite merge_update_first. apply merge_first_ids.
Qed.

Lemma merge_first_comm (m1 m2 : obj) (l : list obj) :
  m1 !! "id" <> m2 !! "id" ->
  merge_first m1 (merge_first m2 l) = merge_first m2 (merge_first m1 l).
Proof.
  intros Hne. induction l as [|r l IH]; [reflexivity|]. simpl.
  destruct (strict_eq (r !! "id") (m2 !! "id")) eqn:H2;
    destruct (strict_eq (r !! "id") (m1 !! "id")) eqn:H1.
  - apply strict_eq_true in H1, H2. congruence.
  - simpl. rewrite ?H1, ?H2. rewrite (merged_id m2 r H2).
    replace (strict_eq (m2 !! "id") (m1 !! "id")) with false; [reflexivity|].
    symmetry. apply strict_eq_false. congruence.
  - simpl. rewrite ?H1, ?H2. rewrite (merged_id m1 r H1).
    replace (strict_eq (m1 !! "id") (m2 !! "id")) with false; [reflexivity|].
    symmetry. apply strict_eq_false. exact Hne.
  - simpl. rewrite ?H1, ?H2, IH. reflexivity.
Qed.

(** Stream updates for two different attendees commute: the view does
    not depend on the order in which they arrive. *)
Theorem on_message_commute (m1 m2 : obj) (prev : list obj) :
  m1 !! "id" <> m2 !! "id" ->
  on_message (Some (PObj m1)) (on_message (Some (PObj m2)) prev)
  = on_message (Some (PObj m2)) (on_message (Some (PObj m1)) prev).
Proof.
  intros Hne. unfold on_message.
  destruct (strict_eq (m1 !! "type") _); destruct (strict_eq (m2 !! "type") _);
    try reflexivity.
  destruct (truthy (m1 !! "id")); destruct (truthy (m2 !! "id")); try reflexivity.
  rewrite !merge_update_first. apply merge_first_comm, Hne.
Qed.

Lemma on_message_commute_witness :
  ({[ "id" := JStr "a" ]} : obj) !! "id" <> ({[ "id" := JStr "b" ]} : obj) !! "id" /\
  on_message (Some (PObj (<["entry_time" := JStr "t1"]> {[ "id" := JStr "a" ]})))
    (on_message (Some (PObj {[ "id" := JStr "b" ]})) [{[ "id" := JStr "a" ]}; {[ "id" := JStr "b" ]}])
  = on_message (Some (PObj {[ "id" := JStr "b" ]}))
    (on_message (Some (PObj (<["entry_time" := JStr "t1"]> {[ "id" := JStr "a" ]})))
       [{[ "id" := JStr "a" ]}; {[ "id" := JStr "b" ]}]).
Proof.
  assert (H : ({[ "id" := JStr "a" ]} : obj) !! "id" <> ({[ "id" := JStr "b" ]} : obj) !! "id")
    by (vm_compute; discriminate).
  split; [exact H|]. apply on_message_commute.
  vm_compute. discriminate.
Defined.

Lemma filter_opt_incl {A} (p : A -> option bool) (l xs : list A) :
  filter_opt p l = Some xs -> forall x, x ∈ xs -> x ∈ l.
Proof.
  revert xs. induction l as [|y l IH]; intros xs H x Hx; simpl in H.
  - injection H as <-. exact Hx.
  - destruct (p y) as [b|]; [|discriminate].
    destruct (filter_opt p l) as [ys|] eqn:Hl; simpl in H; [|discriminate].
    injection H as <-. rewrite elem_of_cons.
    destruct b; [rewrite elem_of_cons in Hx; destruct Hx as [->|Hx]; [left; reflexivity|]|];
      right; exact (IH ys eq_refl x Hx).
Qed.

Lemma live_pred_merge (q : string) (msg r : obj) :
  msg !! "name" = None -> msg !! "mobile" = None ->
  live_pred q (msg ∪ r) = live_pred q r.
Proof.
  intros Hn Hm. unfold live_pred.
  rewrite (lookup_union_r _ _ "name" Hn), (lookup_union_r _ _ "mobile" Hm).
  reflexivity.
Qed.

Lemma filter_merge_first (q : string) (msg : obj) (l : list obj) :
  NoDup (List.map (fun r : obj => r !! "id") l) ->
  msg !! "name" = None -> msg !! "mobile" = None ->
  filter_opt (live_pred q) (merge_first msg l)
  = merge_first msg <$> filter_opt (live_pred q) l.
Proof.
  intros Hnd Hn Hm. induction l as [|r l IH]; [reflexivity|].
  simpl in Hnd. apply NoDup_cons in Hnd as [Hr Hnd]. simpl.
  destruct (strict_eq (r !! "id") (msg !! "id")) eqn:Hid.
  - simpl. rewrite (live_pred_merge q msg r Hn Hm).
    destruct (live_pred q r) as [[|]|]; [| |reflexivity];
      destruct (filter_opt (live_pred q) l) as [xs|] eqn:Hl; try reflexivity;
      simpl; rewrite ?Hid; [reflexivity|].
    rewrite merge_first_absent; [reflexivity|].
    apply strict_eq_true in Hid. rewrite <- Hid.
    intros Hin. apply Hr. apply list_elem_of_In, in_map_iff in Hin.
    destruct Hin as [x [Hx Hxin]]. apply list_elem_of_In in Hxin.
    apply list_elem_of_In, in_map_iff. exists x. split; [exact Hx|].
    apply list_elem_of_In, (filter_opt_incl _ _ _ Hl _ Hxin).
  - simpl. rewrite (IH Hnd).
    destruct (live_pred q r) as [[|]|]; [| |reflexivity];
      destruct (filter_opt (live_pred q) l) as [xs|]; try reflexivity;
      simpl; rewrite ?Hid; reflexivity.
Qed.

(** Searching commutes with a stream update that carries neither [name]
    nor [mobile] (a check-in or delivery-status update), when row ids
    are distinct: the filtered list after the update is the filtered
    list before it, with the same update applied. *)
Theorem filteredLive_on_message (q : string) (msg : obj) (prev : list obj) :
  NoDup (List.map (fun r : obj => r !! "id") prev) ->
  msg !! "name" = None -> msg !! "mobile" = None ->
  filteredLive (on_message (Some (PObj msg)) prev) q
  = on_message (Some (PObj msg)) <$> filteredLive prev q.
Proof.
  intros Hnd Hn Hm. unfold filteredLive, on_message.
  destruct (strict_eq (msg !! "type") _);
    [destruct (filter_opt _ prev); reflexivity|].
  destruct (truthy (msg !! "id")); [|destruct (filter_opt _ prev); reflexivity].
  rewrite merge_update_first, filter_merge_first by assumption.
  destruct (filter_opt _ prev); simpl; [rewrite merge_update_first|]; reflexivity.
Qed.

Lemma filteredLive_on_message_witness :
  NoDup (List.map (fun r : obj => r !! "id")
    [<["name" := JStr "Asha"]> {[ "id" := JStr "a" ]};
     <["name" := JStr "Ravi"]> {[ "id" := JStr "b" ]}]) /\
  (<["attendance_status" := JStr "P"]> {[ "id" := JStr "a" ]} : obj) !! "name" = None /\
  (<["attendance_status" := JStr "P"]> {[ "id" := JStr "a" ]} : obj) !! "mobile" = None /\
  filteredLive (on_message (Some (PObj (<["attendance_status" := JStr "P"]> {[ "id" := JStr "a" ]})))
    [<["name" := JStr "Asha"]> {[ "id" := JStr "a" ]};
     <["name" := JStr "Ravi"]> {[ "id" := JStr "b" ]}]) "ash"
  = on_message (Some (PObj (<["attendance_status" := JStr "P"]> {[ "id" := JStr "a" ]})))
      <$> filteredLive [<["name" := JStr "Asha"]> {[ "id" := JStr "a" ]};
                        <["name" := JStr "Ravi"]> {[ "id" := JStr "b" ]}] "ash".
Proof.
  assert (H1 : NoDup (List.map (fun r : obj => r !! "id")
    [<["name" := JStr "Asha"]> {[ "id" := JStr "a" ]};
     <["name" := JStr "Ravi"]> {[ "id" := JStr "b" ]}])).
  { vm_compute. constructor; [|constructor; [|constructor]].
    - rewrite elem_of_cons. intros [H|H]; [discriminate|inversion H].
    - apply not_elem_of_nil. }
  assert (H2 : (<["attendance_status" := JStr "P"]> {[ "id" := JStr "a" ]} : obj)
    !! "name" = None) by reflexivity.
  assert (H3 : (<["attendance_status" := JStr "P"]> {[ "id" := JStr "a" ]} : obj)
    !! "mobile" = None) by reflexivity.
  split; [exact H1|]. split; [exact H2|]. split; [exact H3|].
  apply filteredLive_on_message; assumption.
Defined.

(* ================================================================= *)
(** ** Proofs: CSV upload preview *)

Lemma split_char_nonempty (c : ascii) (s : string) : split_char c s <> [].
Proof.
  destruct s as [|x s]; simpl; [discriminate|].
  destruct (ascii_dec x c); [discriminate|].
  unfold cons_head. destruct (split_char c s); discriminate.
Qed.

Lemma split_lines_nonempty (s : string) : split_lines s <> [].
Proof.
  destruct s as [|x s]; simpl; [discriminate|].
  assert (Hc : forall t, cons_head x t <> []) by (intros [|? ?]; discriminate).
  destruct (ascii_dec x newline); [discriminate|].
  destruct (ascii_dec x cr); [|apply Hc].
  destruct s as [|y s]; [apply Hc|]. destruct (ascii_dec y newline); [discriminate|apply Hc].
Qed.

Lemma join_cons_head (sep : string) (x : ascii) (l : list string) :
  l <> [] -> join sep (cons_head x l) = String x (join sep l).
Proof.
  intros Hl. destruct l as [|h [|h' t]]; [contradiction|reflexivity|].
  simpl cons_head. rewrite !join_cons_cons. reflexivity.
Qed.

Lemma join_cons_empty (sep : string) (l : list string) :
  l <> [] -> join sep (EmptyString :: l) = (sep ++ join sep l).
Proof. intros Hl. destruct l as [|h t]; [contradiction|]. reflexivity. Qed.

Lemma join_split_char (c : ascii) (s : string) :
  join (String c EmptyString) (split_char c s) = s.
Proof.
  induction s as [|x s IH]; [reflexivity|]. simpl.
  destruct (ascii_dec x c) as [->|_].
  - rewrite join_cons_empty by apply split_char_nonempty. rewrite IH. reflexivity.
  - rewrite join_cons_head by apply split_char_nonempty. rewrite IH. reflexivity.
Qed.

Lemma In_firstn {A} (n : nat) (x : A) (l : list A) : In x (firstn n l) -> In x l.
Proof.
  intros H. rewrite <- (firstn_skipn n l). apply in_or_app. left. exact H.
Qed.

(** The preview holds at most four rows; each has at least two cells
    and, joined back with commas, is one line of the uploaded text. *)
Theorem csv_preview_rows (text : string) :
  List.length (csv_preview text) <= 4 /\
  forall r, In r (csv_preview text) ->
    2 <= List.length r /\ In (join "," r) (split_lines text).
Proof.
  split; [apply firstn_le_length|].
  intros r Hr. apply In_firstn in Hr. unfold csv_rows in Hr.
  apply filter_In in Hr as [Hr Hlen]. apply Nat.ltb_lt in Hlen.
  split; [lia|]. apply in_map_iff in Hr as [l [<- Hl]].
  change "," with (String comma EmptyString). rewrite join_split_char. exact Hl.
Qed.

Lemma split_lines_plain (x : ascii) (s : string) :
  x <> newline ->
  (x = cr -> match s with String y _ => y <> newline | EmptyString => True end) ->
  split_lines (String x s) = cons_head x (split_lines s).
Proof.
  intros Hx Hcr. simpl. destruct (ascii_dec x newline); [contradiction|].
  destruct (ascii_dec x cr) as [Heq|]; [|reflexivity].
  specialize (Hcr Heq). destruct s as [|y s]; [reflexivity|].
  destruct (ascii_dec y newline); [contradiction|reflexivity].
Qed.

Lemma has_char_cons (c x : ascii) (s : string) :
  has_char c (String x s) = false -> x <> c /\ has_char c s = false.
Proof. simpl. destruct (ascii_dec x c); [discriminate|]. auto. Qed.

Lemma cr_not_newline : cr <> newline.
Proof. discriminate. Qed.

Lemma split_lines_no_lf (s : string) :
  has_char newline s = false -> split_lines s = [s].
Proof.
  induction s as [|x s IH]; intros H; [reflexivity|].
  apply has_char_cons in H as [Hx Hs].
  rewrite split_lines_plain by
    (exact Hx || (intros _; destruct s as [|y s]; [exact I|apply has_char_cons in Hs; tauto])).
  rewrite (IH Hs). reflexivity.
Qed.

Lemma split_lines_crlf (s rest : string) :
  has_char newline s = false ->
  split_lines (s ++ crlf ++ rest) = s :: split_lines rest.
Proof.
  induction s as [|x s IH]; intros H; [reflexivity|].
  apply has_char_cons in H as [Hx Hs]. rewrite str_app_cons.
  rewrite split_lines_plain.
  - rewrite (IH Hs). reflexivity.
  - exact Hx.
  - intros _. destruct s as [|y s]; [exact cr_not_newline|].
    apply has_char_cons in Hs. tauto.
Qed.

Lemma ends_cr_cons (x y : ascii) (s : string) :
  ends_cr (String x (String y s)) = ends_cr (String y s).
Proof. reflexivity. Qed.

Lemma split_lines_lf (s rest : string) :
  has_char newline s = false -> ends_cr s = false ->
  split_lines (s ++ lf ++ rest) = s :: split_lines rest.
Proof.
  induction s as [|x s IH]; intros H He; [reflexivity|].
  apply has_char_cons in H as [Hx Hs]. rewrite str_app_cons.
  rewrite split_lines_plain.
  - destruct s as [|y s].
    + reflexivity.
    + rewrite ends_cr_cons in He. rewrite (IH Hs He). reflexivity.
  - exact Hx.
  - intros ->. destruct s as [|y s]; [discriminate He|].
    apply has_char_cons in Hs. tauto.
Qed.

Lemma split_lines_join_crlf (ls : list string) :
  Forall (fun l => has_char newline l = false) ls -> ls <> [] ->
  split_lines (join crlf ls) = ls.
Proof.
  induction ls as [|x [|y l] IH]; intros Hf Hne; [contradiction| |].
  - inversion Hf; subst. apply split_lines_no_lf. assumption.
  - inversion Hf; subst. rewrite join_cons_cons, split_lines_crlf by assumption.
    rewrite IH by (assumption || discriminate). reflexivity.
Qed.

Lemma split_lines_join_lf (ls : list string) :
  Forall (fun l => has_char newline l = false /\ ends_cr l = false) ls -> ls <> [] ->
  split_lines (join lf ls) = ls.
Proof.
  induction ls as [|x [|y l] IH]; intros Hf Hne; [contradiction| |].
  - inversion Hf as [|? ? [Hx _]]; subst. apply split_lines_no_lf. assumption.
  - inversion Hf as [|? ? [Hx Hx'] Hl]; subst.
    rewrite join_cons_cons, split_lines_lf by assumption.
    rewrite IH by (assumption || discriminate). reflexivity.
Qed.

(** Line endings do not matter: for lines without line feeds that do
    not end in a carriage return, a file written with CRLF and the same
    file written with LF give the same preview, the first four of its
    lines with more than one comma-separated cell. *)
Theorem csv_preview_line_endings (ls : list string) :
  Forall (fun l => has_char newline l = false /\ ends_cr l = false) ls ->
  csv_preview (join crlf ls) = csv_preview (join lf ls) /\
  csv_preview (join lf ls) =
    firstn 4 (List.filter (fun r => Nat.ltb 1 (List.length r))
                (List.map (split_char comma) ls)).
Proof.
  intros Hf. destruct ls as [|x l]; [split; reflexivity|].
  assert (Hf' : Forall (fun l => has_char newline l = false) (x :: l)).
  { eapply Forall_impl; [exact Hf|]. intros a [Ha _]. exact Ha. }
  unfold csv_preview, csv_rows.
  rewrite split_lines_join_crlf, split_lines_join_lf by (assumption || discriminate).
  split; reflexivity.
Qed.

Lemma csv_preview_line_endings_witness :
  Forall (fun l => has_char newline l = false /\ ends_cr l = false)
    ["name,email"; "Asha,asha@x.in"] /\
  csv_preview (join crlf ["name,email"; "Asha,asha@x.in"])
    = csv_preview (join lf ["name,email"; "Asha,asha@x.in"]) /\
  csv_preview (join lf ["name,email"; "Asha,asha@x.in"]) =
    firstn 4 (List.filter (fun r => Nat.ltb 1 (List.length r))
                (List.map (split_char comma) ["name,email"; "Asha,asha@x.in"])).
Proof.
  assert (H : Forall (fun l => has_char newline l = false /\ ends_cr l = false)
    ["name,email"; "Asha,asha@x.in"]).
  { constructor; [split; reflexivity|constructor; [split; reflexivity|constructor]]. }
  split; [exact H|]. apply csv_preview_line_endings. exact H.
Defined.

(* ================================================================= *)
(** ** Proofs: staff editing *)

Lemma truthy_Some (v : option jv) : truthy v = true -> exists x, v = Some x.
Proof. destruct v as [x|]; [eauto|discriminate]. Qed.

Lemma copy_if_truthy_lookup (k k' : string) (form d : obj) :
  copy_if_truthy k form d !! k' =
  if decide (k' = k) then (if truthy (form !! k) then form !! k else d !! k)
  else d !! k'.
Proof.
  unfold copy_if_truthy.
  destruct (truthy (form !! k)) eqn:T; [|case_decide; subst; reflexivity].
  destruct (truthy_Some _ T) as [v Hv]. rewrite Hv.
  case_decide; subst; [apply lookup_insert_eq|].
  apply lookup_insert_ne. congruence.
Qed.

(** The body sent by [handleUpdateStaff] holds exactly the four form
    fields [name], [email], [password] and [role] whose value is truthy,
    with that value: an empty field is left out, so it is not changed. *)
Theorem update_data_lookup (form : obj) (k : string) :
  update_data form !! k =
  if bool_decide (k ∈ ["name"; "email"; "password"; "role"]) && truthy (form !! k)
  then form !! k else None.
Proof.
  unfold update_data. rewrite !copy_if_truthy_lookup.
  destruct (bool_decide (k ∈ _)) eqn:Hk.
  - apply bool_decide_eq_true in Hk.
    rewrite !elem_of_cons, elem_of_nil in Hk.
    destruct Hk as [->|[->|[->|[->|[]]]]];
      repeat (case_decide; [try congruence|]); try congruence;
      rewrite ?lookup_empty; simpl;
      destruct (truthy _); reflexivity.
  - apply bool_decide_eq_false in Hk. rewrite !elem_of_cons, elem_of_nil in Hk.
    simpl. repeat (case_decide; [exfalso; tauto|]). apply lookup_empty.
Qed.

Lemma set_field_lookup (k k' : string) (v : option jv) (o : obj) :
  set_field k v o !! k' =
  if decide (k' = k) then match v with Some _ => v | None => o !! k' end
  else o !! k'.
Proof.
  destruct v as [x|]; simpl; case_decide; subst; try reflexivity.
  - apply lookup_insert_eq.
  - apply lookup_insert_ne. congruence.
Qed.

Lemma startEditStaff_lookup (staff : obj) :
  snd (startEditStaff staff) !! "name" = staff !! "name" /\
  snd (startEditStaff staff) !! "email" = staff !! "email" /\
  snd (startEditStaff staff) !! "password" = Some (JStr "") /\
  snd (startEditStaff staff) !! "role" = staff !! "role".
Proof.
  unfold startEditStaff, snd.
  repeat split; rewrite !set_field_lookup; repeat case_decide; try congruence;
    rewrite ?lookup_insert_eq, ?lookup_insert_ne by congruence;
    rewrite ?set_field_lookup; repeat case_decide; try congruence;
    rewrite ?lookup_empty; try reflexivity;
    match goal with |- context [match ?v with Some _ => _ | None => _ end] =>
      destruct v; reflexivity end.
Qed.

(** Opening a staff member for editing and saving without touching the
    form sends a PUT to that member's path whose body has no
    [password] (the form starts with an empty one), and carries the
    member's [name], [email] and [role] when they are truthy. *)
Theorem edit_without_changes (staff : obj) :
  exists req,
    handleUpdateStaff (fst (startEditStaff staff)) (snd (startEditStaff staff)) = Some req /\
    req_method req = "PUT" /\
    req_path req = ("/admin/staff/" ++ js_template (staff !! "id"))%string /\
    req_body req !! "password" = None /\
    forall k, k ∈ ["name"; "email"; "role"] ->
      req_body req !! k = if truthy (staff !! k) then staff !! k else None.
Proof.
  destruct (startEditStaff_lookup staff) as [Hn [He [Hp Hr]]].
  set (form := snd (startEditStaff staff)) in *.
  eexists. split; [reflexivity|]. split; [reflexivity|]. split; [reflexivity|].
  cbn [req_body]. split.
  - rewrite update_data_lookup, Hp. destruct (bool_decide _); reflexivity.
  - intros k Hk. rewrite update_data_lookup.
    rewrite !elem_of_cons, elem_of_nil in Hk.
    destruct Hk as [->|[->|[->|[]]]];
      (rewrite bool_decide_true by (apply list_elem_of_In; simpl; tauto));
      simpl; [rewrite Hn|rewrite He|rewrite Hr]; reflexivity.
Qed.

(* ================================================================= *)
(** ** Proofs: login, logout and auto-login *)

Lemma mount_stored (t : string) (data : obj) :
  t <> "" ->
  view (mount (Some t) (Some data)) =
    (if is_admin (data !! "role") then "admin" else "staff") /\
  role (mount (Some t) (Some data)) = data !! "role" /\
  staffInfo (mount (Some t) (Some data)) = Some data.
Proof.
  intros Ht. unfold mount.
  destruct (String.eqb t "") eqn:E; [apply String.eqb_eq in E; contradiction|].
  simpl. rewrite E. repeat split.
Qed.

(** A staff account that signs in through the admin login is refused
    (the view does not change and the privileges error is shown), but
    [handleLogin] has already stored its token and profile: the token is
    in the app state, and the next page load signs it in as staff. *)
Theorem admin_login_refused_but_stored (s : app_state) (data : obj) :
  login_type s = Some "admin" ->
  is_admin (data !! "role") = false ->
  js_template (data !! "token") <> "" ->
  view (handleLogin (LoginOk data) s) = view s /\
  notification (handleLogin (LoginOk data) s) = Some (privileges_msg, "error") /\
  token (handleLogin (LoginOk data) s) = data !! "token" /\
  staffInfo (handleLogin (LoginOk data) s) = Some data /\
  view (reload (handleLogin (LoginOk data) s)) = "staff".
Proof.
  intros Hl Ha Ht. unfold handleLogin. rewrite Hl, Ha.
  rewrite bool_decide_true by reflexivity. cbn -[mount].
  split; [reflexivity|]. split; [reflexivity|]. split; [reflexivity|].
  split; [reflexivity|]. unfold reload. cbn -[mount].
  destruct (mount_stored _ data Ht) as [Hv _]. rewrite Hv, Ha. reflexivity.
Qed.

(** An accepted login survives a page load: the auto-login effect
    restores the same view and role from [localStorage]. *)
Theorem login_survives_reload (s : app_state) (data : obj) :
  (login_type s = Some "admin" -> is_admin (data !! "role") = true) ->
  js_template (data !! "token") <> "" ->
  view (reload (handleLogin (LoginOk data) s)) = view (handleLogin (LoginOk data) s) /\
  role (reload (handleLogin (LoginOk data) s)) = role (handleLogin (LoginOk data) s) /\
  staffInfo (reload (handleLogin (LoginOk data) s)) = Some data.
Proof.
  intros Hl Ht.
  assert (Hok : bool_decide (login_type s = Some "admin") && negb (is_admin (data !! "role"))
                = false).
  { case_bool_decide as H; [rewrite (Hl H); reflexivity|reflexivity]. }
  unfold handleLogin. rewrite Hok. unfold reload. cbn -[mount].
  destruct (mount_stored _ data Ht) as [Hv [Hr Hs]]. rewrite Hv, Hr, Hs.
  split; [reflexivity|]. split; [reflexivity|]. reflexivity.
Qed.

(** Logging out is durable: [handleLogout] clears both stored entries,
    so the next page load stays on the home view, signed out. *)
Theorem logout_survives_reload (s : app_state) :
  view (reload (handleLogout s)) = "home" /\
  role (reload (handleLogout s)) = None /\
  staffInfo (reload (handleLogout s)) = None /\
  truthy (token (reload (handleLogout s))) = false.
Proof. repeat split. Qed.

Lemma admin_login_refused_but_stored_witness :
  login_type {| view := "login-admin"; login_type := Some "admin"; role := None;
       token := Some JNull; staffInfo := None; active_tab := "dashboard";
       ls_token := None; ls_staffInfo := None; notification := None |} = Some "admin" /\
  is_admin ((<["role" := JStr "staff"]> (<["token" := JStr "t0k"]> {[ "name" := JStr "Ravi" ]}) : obj) !! "role") = false /\
  js_template ((<["role" := JStr "staff"]> (<["token" := JStr "t0k"]> {[ "name" := JStr "Ravi" ]}) : obj) !! "token") <> "" /\
  view (handleLogin (LoginOk (<["role" := JStr "staff"]> (<["token" := JStr "t0k"]> {[ "name" := JStr "Ravi" ]}) : obj)) {| view := "login-admin"; login_type := Some "admin"; role := None;
       token := Some JNull; staffInfo := None; active_tab := "dashboard";
       ls_token := None; ls_staffInfo := None; notification := None |}) = view {| view := "login-admin"; login_type := Some "admin"; role := None;
       token := Some JNull; staffInfo := None; active_tab := "dashboard";
       ls_token := None; ls_staffInfo := None; notification := None |} /\
  notification (handleLogin (LoginOk (<["role" := JStr "staff"]> (<["token" := JStr "t0k"]> {[ "name" := JStr "Ravi" ]}) : obj)) {| view := "login-admin"; login_type := Some "admin"; role := None;
       token := Some JNull; staffInfo := None; active_tab := "dashboard";
       ls_token := None; ls_staffInfo := None; notification := None |}) = Some (privileges_msg, "error") /\
  token (handleLogin (LoginOk (<["role" := JStr "staff"]> (<["token" := JStr "t0k"]> {[ "name" := JStr "Ravi" ]}) : obj)) {| view := "login-admin"; login_type := Some "admin"; role := None;
       token := Some JNull; staffInfo := None; active_tab := "dashboard";
       ls_token := None; ls_staffInfo := None; notification := None |}) = (<["role" := JStr "staff"]> (<["token" := JStr "t0k"]> {[ "name" := JStr "Ravi" ]}) : obj) !! "token" /\
  staffInfo (handleLogin (LoginOk (<["role" := JStr "staff"]> (<["token" := JStr "t0k"]> {[ "name" := JStr "Ravi" ]}) : obj)) {| view := "login-admin"; login_type := Some "admin"; role := None;
       token := Some JNull; staffInfo := None; active_tab := "dashboard";
       ls_token := None; ls_staffInfo := None; notification := None |}) = Some (<["role" := JStr "staff"]> (<["token" := JStr "t0k"]> {[ "name" := JStr "Ravi" ]}) : obj) /\
  view (reload (handleLogin (LoginOk (<["role" := JStr "staff"]> (<["token" := JStr "t0k"]> {[ "name" := JStr "Ravi" ]}) : obj)) {| view := "login-admin"; login_type := Some "admin"; role := None;
       token := Some JNull; staffInfo := None; active_tab := "dashboard";
       ls_token := None; ls_staffInfo := None; notification := None |})) = "staff".
Proof.
  assert (H3 : js_template ((<["role" := JStr "staff"]> (<["token" := JStr "t0k"]> {[ "name" := JStr "Ravi" ]}) : obj) !! "token") <> "") by discriminate.
  split; [reflexivity|]. split; [reflexivity|]. split; [exact H3|].
  apply admin_login_refused_but_stored; [reflexivity|reflexivity|exact H3].
Defined.

Lemma login_survives_reload_witness :
  (login_type {| view := "login-staff"; login_type := Some "staff"; role := None;
       token := Some JNull; staffInfo := None; active_tab := "dashboard";
       ls_token := None; ls_staffInfo := None; notification := None |} = Some "admin" -> is_admin ((<["role" := JStr "staff"]> (<["token" := JStr "t0k"]> {[ "name" := JStr "Ravi" ]}) : obj) !! "role") = true) /\
  js_template ((<["role" := JStr "staff"]> (<["token" := JStr "t0k"]> {[ "name" := JStr "Ravi" ]}) : obj) !! "token") <> "" /\
  view (reload (handleLogin (LoginOk (<["role" := JStr "staff"]> (<["token" := JStr "t0k"]> {[ "name" := JStr "Ravi" ]}) : obj)) {| view := "login-staff"; login_type := Some "staff"; role := None;
       token := Some JNull; staffInfo := None; active_tab := "dashboard";
       ls_token := None; ls_staffInfo := None; notification := None |}))
    = view (handleLogin (LoginOk (<["role" := JStr "staff"]> (<["token" := JStr "t0k"]> {[ "name" := JStr "Ravi" ]}) : obj)) {| view := "login-staff"; login_type := Some "staff"; role := None;
       token := Some JNull; staffInfo := None; active_tab := "dashboard";
       ls_token := None; ls_staffInfo := None; notification := None |}) /\
  role (reload (handleLogin (LoginOk (<["role" := JStr "staff"]> (<["token" := JStr "t0k"]> {[ "name" := JStr "Ravi" ]}) : obj)) {| view := "login-staff"; login_type := Some "staff"; role := None;
       token := Some JNull; staffInfo := None; active_tab := "dashboard";
       ls_token := None; ls_staffInfo := None; notification := None |}))
    = role (handleLogin (LoginOk (<["role" := JStr "staff"]> (<["token" := JStr "t0k"]> {[ "name" := JStr "Ravi" ]}) : obj)) {| view := "login-staff"; login_type := Some "staff"; role := None;
       token := Some JNull; staffInfo := None; active_tab := "dashboard";
       ls_token := None; ls_staffInfo := None; notification := None |}) /\
  staffInfo (reload (handleLogin (LoginOk (<["role" := JStr "staff"]> (<["token" := JStr "t0k"]> {[ "name" := JStr "Ravi" ]}) : obj)) {| view := "login-staff"; login_type := Some "staff"; role := None;
       token := Some JNull; staffInfo := None; active_tab := "dashboard";
       ls_token := None; ls_staffInfo := None; notification := None |})) = Some (<["role" := JStr "staff"]> (<["token" := JStr "t0k"]> {[ "name" := JStr "Ravi" ]}) : obj).
Proof.
  assert (H1 : login_type {| view := "login-staff"; login_type := Some "staff"; role := None;
       token := Some JNull; staffInfo := None; active_tab := "dashboard";
       ls_token := None; ls_staffInfo := None; notification := None |} = Some "admin" -> is_admin ((<["role" := JStr "staff"]> (<["token" := JStr "t0k"]> {[ "name" := JStr "Ravi" ]}) : obj) !! "role") = true)
    by discriminate.
  assert (H2 : js_template ((<["role" := JStr "staff"]> (<["token" := JStr "t0k"]> {[ "name" := JStr "Ravi" ]}) : obj) !! "token") <> "") by discriminate.
  split; [exact H1|]. split; [exact H2|].
  apply login_survives_reload; [exact H1|exact H2].
Defined.

(* ================================================================= *)
(** ** Proofs: the [attendance_summary] view *)

Lemma filter_attendee_absent (x : nat) (l : list attendance_row) :
  x ∉ List.map attendee_id l ->
  List.filter (fun r => Nat.eqb (attendee_id r) x) l = [].
Proof.
  induction l as [|r l IH]; intros H; [reflexivity|]. simpl in *.
  rewrite elem_of_cons in H.
  destruct (Nat.eqb (attendee_id r) x) eqn:E.
  - apply Nat.eqb_eq in E. exfalso. apply H. left. symmetry. exact E.
  - apply IH. intros Hx. apply H. right. exact Hx.
Qed.

Lemma filter_attendee_at_most_one (x : nat) (l : list attendance_row) :
  NoDup (List.map attendee_id l) ->
  List.filter (fun r => Nat.eqb (attendee_id r) x) l = [] \/
  exists r, List.filter (fun r => Nat.eqb (attendee_id r) x) l = [r].
Proof.
  induction l as [|r l IH]; intros Hnd; [left; reflexivity|].
  simpl in Hnd. apply NoDup_cons in Hnd as [Hr Hnd]. simpl.
  destruct (Nat.eqb (attendee_id r) x) eqn:E.
  - apply Nat.eqb_eq in E. subst x. right. exists r.
    rewrite filter_attendee_absent by exact Hr. reflexivity.
  - exact (IH Hnd).
Qed.

Lemma existsb_filter {A} (f : A -> bool) (l : list A) :
  existsb f l = match List.filter f l with [] => false | _ => true end.
Proof.
  induction l as [|x l IH]; [reflexivity|]. simpl.
  destruct (f x); [reflexivity|exact IH].
Qed.

(** Under [UNIQUE (attendee_id)] every attendee gives exactly one row
    of the join, with a non-NULL [att.id] when it has an attendance row. *)
Lemma left_join_block (a : attendees_row) (att : list attendance_row) :
  NoDup (List.map attendee_id att) ->
  exists o,
    match List.filter (fun r => Nat.eqb (attendee_id r) (ar_id a)) att with
    | [] => [(a, None)]
    | rs => List.map (fun r => (a, Some (att_id r))) rs
    end = [(a, o)] /\
    match o with Some _ => true | None => false end =
      existsb (fun r => Nat.eqb (attendee_id r) (ar_id a)) att.
Proof.
  intros Hnd. rewrite existsb_filter.
  destruct (filter_attendee_at_most_one (ar_id a) att Hnd) as [E|[r E]];
    rewrite E; [exists None|exists (Some (att_id r))]; split; reflexivity.
Qed.

Lemma left_join_counts (attendees : list attendees_row) (att : list attendance_row)
    (b : string) :
  NoDup (List.map attendee_id att) ->
  total_registered b (left_join attendees att) =
    List.length (List.filter (fun a => String.eqb (ar_batch a) b) attendees) /\
  total_attended b (left_join attendees att) =
    List.length (List.filter (fun a => String.eqb (ar_batch a) b &&
       existsb (fun r => Nat.eqb (attendee_id r) (ar_id a)) att) attendees).
Proof.
  intros Hnd. unfold total_registered, total_attended, group_rows.
  induction attendees as [|a l IH]; [split; reflexivity|].
  destruct IH as [IH1 IH2].
  destruct (left_join_block a att Hnd) as [o [Ho Hex]].
  change (left_join (a :: l) att) with
    ((match List.filter (fun r => Nat.eqb (attendee_id r) (ar_id a)) att with
      | [] => [(a, None)]
      | rs => List.map (fun r => (a, Some (att_id r))) rs
      end) ++ left_join l att)%list.
  rewrite Ho. simpl. rewrite <- Hex.
  destruct (String.eqb (ar_batch a) b); simpl; [|split; assumption].
  destruct o; simpl; rewrite ?IH1, ?IH2; split; reflexivity.
Qed.

Lemma length_filter_le' {A} (f : A -> bool) (l : list A) :
  List.length (List.filter f l) <= List.length l.
Proof. induction l as [|x l IH]; [reflexivity|]. simpl. destruct (f x); simpl; lia. Qed.

(** Each row of [attendance_summary] (the schema keeps one attendance
    row per attendee): [total_registered] is the number of attendees of
    the batch, [total_attended] the number of those with an attendance
    row; so [total_attended <= total_registered], and a listed batch
    has at least one attendee. *)
Theorem attendance_summary_row (attendees : list attendees_row)
    (att : list attendance_row) (b : string) (reg n : nat) :
  NoDup (List.map attendee_id att) ->
  In (b, reg, n) (attendance_summary attendees att) ->
  reg = List.length (List.filter (fun a => String.eqb (ar_batch a) b) attendees) /\
  n = List.length (List.filter (fun a => String.eqb (ar_batch a) b &&
        existsb (fun r => Nat.eqb (attendee_id r) (ar_id a)) att) attendees) /\
  n <= reg /\ 1 <= reg.
Proof.
  intros Hnd Hin. unfold attendance_summary in Hin.
  apply in_map_iff in Hin as [b' [Heq Hb]]. injection Heq as <- <- <-.
  destruct (left_join_counts attendees att b' Hnd) as [H1 H2].
  split; [exact H1|]. split; [exact H2|]. split.
  - unfold total_attended, total_registered. apply length_filter_le'.
  - apply nodup_In, in_map_iff in Hb as [p [Hp Hpin]].
    unfold total_registered, group_rows.
    assert (Hg : In p (List.filter (fun p => String.eqb (ar_batch p.1) b') (left_join attendees att))).
    { apply filter_In. split; [exact Hpin|]. apply String.eqb_eq. exact Hp. }
    revert Hg. generalize (List.filter (fun p => String.eqb (ar_batch p.1) b')
      (left_join attendees att)). intros [|? ?] Hg; [destruct Hg|simpl; lia].
Qed.

Lemma attendance_summary_row_witness :
  NoDup (List.map attendee_id
    [{| att_id := 10; attendee_id := 1; entry_time := 0 |}]) /\
  In ("DYP", 2, 1) (attendance_summary
    [{| ar_id := 1; ar_batch := "DYP" |}; {| ar_id := 2; ar_batch := "DYP" |};
     {| ar_id := 3; ar_batch := "BMI" |}]
    [{| att_id := 10; attendee_id := 1; entry_time := 0 |}]) /\
  (2 = List.length (List.filter (fun a => String.eqb (ar_batch a) "DYP")
    [{| ar_id := 1; ar_batch := "DYP" |}; {| ar_id := 2; ar_batch := "DYP" |};
     {| ar_id := 3; ar_batch := "BMI" |}]) /\
   1 = List.length (List.filter (fun a => String.eqb (ar_batch a) "DYP" &&
     existsb (fun r => Nat.eqb (attendee_id r) (ar_id a))
       [{| att_id := 10; attendee_id := 1; entry_time := 0 |}])
    [{| ar_id := 1; ar_batch := "DYP" |}; {| ar_id := 2; ar_batch := "DYP" |};
     {| ar_id := 3; ar_batch := "BMI" |}]) /\
   1 <= 2 /\ 1 <= 2).
Proof.
  assert (H1 : NoDup (List.map attendee_id
    [{| att_id := 10; attendee_id := 1; entry_time := 0 |}]))
    by (simpl; apply NoDup_singleton).
  assert (H2 : In ("DYP", 2, 1) (attendance_summary
    [{| ar_id := 1; ar_batch := "DYP" |}; {| ar_id := 2; ar_batch := "DYP" |};
     {| ar_id := 3; ar_batch := "BMI" |}]
    [{| att_id := 10; attendee_id := 1; entry_time := 0 |}]))
    by (vm_compute; left; reflexivity).
  split; [exact H1|]. split; [exact H2|].
  exact (attendance_summary_row _ _ _ _ _ H1 H2).
Defined.

Lemma left_join_fst (attendees : list attendees_row) (att : list attendance_row)
    (p : attendees_row * option nat) :
  In p (left_join attendees att) -> In p.1 attendees.
Proof.
  unfold left_join. intros H. apply in_flat_map in H as [a [Ha Hp]].
  destruct (List.filter _ att) as [|r rs].
  - destruct Hp as [<-|[]]. exact Ha.
  - apply in_map_iff in Hp as [r' [<- _]]. exact Ha.
Qed.

Lemma left_join_covers (attendees : list attendees_row) (att : list attendance_row)
    (a : attendees_row) :
  In a attendees -> exists o, In (a, o) (left_join attendees att).
Proof.
  unfold left_join. intros Ha.
  destruct (List.filter (fun r => Nat.eqb (attendee_id r) (ar_id a)) att) as [|r rs] eqn:E.
  - exists None. apply in_flat_map. exists a. split; [exact Ha|]. rewrite E. left. reflexivity.
  - exists (Some (att_id r)). apply in_flat_map. exists a. split; [exact Ha|].
    rewrite E. left. reflexivity.
Qed.

(** [attendance_summary] has exactly one row per batch that has an
    attendee, whatever the attendance table holds. *)
Theorem attendance_summary_batches (attendees : list attendees_row)
    (att : list attendance_row) :
  NoDup (List.map (fun t : string * nat * nat => t.1.1) (attendance_summary attendees att)) /\
  forall b, (exists reg n, In (b, reg, n) (attendance_summary attendees att)) <->
            (exists a, In a attendees /\ ar_batch a = b).
Proof.
  unfold attendance_summary. rewrite map_map. simpl. rewrite map_id.
  split; [apply NoDup_ListNoDup, NoDup_nodup|]. intros b. split.
  - intros [reg [n Hin]]. apply in_map_iff in Hin as [b' [Heq Hb]].
    injection Heq as -> _ _. apply nodup_In, in_map_iff in Hb as [p [Hp Hpin]].
    exists p.1. split; [exact (left_join_fst _ _ _ Hpin)|exact Hp].
  - intros [a [Ha <-]]. destruct (left_join_covers attendees att a Ha) as [o Ho].
    do 2 eexists. apply in_map_iff. eexists. split; [reflexivity|].
    apply nodup_In, in_map_iff. exists (a, o). split; [reflexivity|exact Ho].
Qed.

(* ================================================================= *)
(** ** Proofs: request headers and tab loaders *)

Lemma handleLogin_token (data : obj) (s : app_state) :
  token (handleLogin (LoginOk data) s) = data !! "token".
Proof.
  unfold handleLogin. destruct (_ && _); reflexivity.
Qed.

Lemma api_headers_lookup (tok : option jv) (h : option obj) (k : string) :
  default ∅ h !! "Authorization" = None ->
  api_headers tok h !! k =
  if decide (k = "Authorization") then
    (if truthy tok then Some (JStr ("Bearer " ++ js_template tok)) else None)
  else default ∅ h !! k.
Proof.
  intros Hh. unfold api_headers. rewrite lookup_union.
  case_decide as Hk.
  - subst k. rewrite Hh. destruct (truthy tok).
    + rewrite lookup_singleton_eq. reflexivity.
    + rewrite lookup_empty. reflexivity.
  - destruct (truthy tok).
    + rewrite lookup_singleton_ne by congruence.
      destruct (default ∅ h !! k); reflexivity.
    + rewrite lookup_empty. destruct (default ∅ h !! k); reflexivity.
Qed.

(** Every [apiCall] made after [handleLogin] received a profile carries
    [Authorization: Bearer <token>] when the token is truthy, also after
    the admin login refused the account, and no [Authorization] header
    after [handleLogout]; the caller's other headers are sent as given
    (the callers in [App] pass none or only [Content-Type]). *)
Theorem apiCall_authorization (s : app_state) (data : obj) (h : option obj) :
  default ∅ h !! "Authorization" = None ->
  api_headers (token (handleLogin (LoginOk data) s)) h !! "Authorization" =
    (if truthy (data !! "token")
     then Some (JStr ("Bearer " ++ js_template (data !! "token"))) else None) /\
  api_headers (token (handleLogout s)) h !! "Authorization" = None /\
  (forall k, k <> "Authorization" ->
     api_headers (token (handleLogin (LoginOk data) s)) h !! k = default ∅ h !! k).
Proof.
  intros Hh. rewrite handleLogin_token. split; [|split].
  - rewrite api_headers_lookup by exact Hh. reflexivity.
  - rewrite api_headers_lookup by exact Hh. reflexivity.
  - intros k Hk. rewrite api_headers_lookup by exact Hh.
    case_decide; [contradiction|reflexivity].
Qed.

Lemma apiCall_authorization_witness :
  default ∅ (Some (<["Content-Type" := JStr "application/json"]> ∅ : obj))
    !! "Authorization" = None /\
  api_headers (token (handleLogin (LoginOk ({[ "token" := JStr "t0k" ]} : obj))
    (mount None None))) (Some (<["Content-Type" := JStr "application/json"]> ∅ : obj))
    !! "Authorization" =
    (if truthy (({[ "token" := JStr "t0k" ]} : obj) !! "token")
     then Some (JStr ("Bearer " ++ js_template (({[ "token" := JStr "t0k" ]} : obj) !! "token")))
     else None) /\
  api_headers (token (handleLogout (mount None None)))
    (Some (<["Content-Type" := JStr "application/json"]> ∅ : obj)) !! "Authorization" = None /\
  (forall k, k <> "Authorization" ->
     api_headers (token (handleLogin (LoginOk ({[ "token" := JStr "t0k" ]} : obj))
       (mount None None))) (Some (<["Content-Type" := JStr "application/json"]> ∅ : obj)) !! k
     = default ∅ (Some (<["Content-Type" := JStr "application/json"]> ∅ : obj)) !! k).
Proof.
  assert (H : default ∅ (Some (<["Content-Type" := JStr "application/json"]> ∅ : obj))
    !! "Authorization" = None) by reflexivity.
  split; [exact H|]. apply apiCall_authorization. exact H.
Defined.

(** Outside the admin view the tab effects never fetch an [/admin]
    endpoint. *)
Theorem tab_loads_no_admin (activeTab view : string) :
  view <> "admin" ->
  Forall (fun e => String.prefix "/admin" e = false)
    (dashboard_loads activeTab view ++ admin_loads activeTab view).
Proof.
  intros Hv. apply String.eqb_neq in Hv. unfold dashboard_loads, admin_loads.
  rewrite Hv. destruct (String.eqb activeTab "dashboard");
    [destruct (String.eqb view "staff")|]; simpl; repeat constructor.
Qed.

Lemma tab_loads_no_admin_witness :
  "staff" <> "admin" /\
  Forall (fun e => String.prefix "/admin" e = false)
    (dashboard_loads "dashboard" "staff" ++ admin_loads "dashboard" "staff").
Proof.
  assert (H : "staff" <> "admin") by discriminate.
  split; [exact H|]. exact (tab_loads_no_admin "dashboard" "staff" H).
Defined.

(* ================================================================= *)
(** ** Proofs: the [daily_attendance] view *)

Lemma filter_attendees_one (x : nat) (l : list attendees_row) :
  NoDup (List.map ar_id l) -> (exists a, In a l /\ ar_id a = x) ->
  exists a, List.filter (fun a => Nat.eqb (ar_id a) x) l = [a].
Proof.
  induction l as [|b l IH]; intros Hnd [a [Ha Hx]]; [destruct Ha|].
  simpl in Hnd. apply NoDup_cons in Hnd as [Hb Hnd]. simpl.
  destruct (Nat.eqb (ar_id b) x) eqn:E.
  - apply Nat.eqb_eq in E. exists b. f_equal.
    clear IH Ha Hx a Hnd. induction l as [|c l IHl]; [reflexivity|].
    simpl in *. rewrite elem_of_cons in Hb.
    destruct (Nat.eqb (ar_id c) x) eqn:E'.
    + apply Nat.eqb_eq in E'. exfalso. apply Hb. left. congruence.
    + apply IHl. intros Hin. apply Hb. right. exact Hin.
  - apply IH; [exact Hnd|]. destruct Ha as [<-|Ha].
    + apply Nat.eqb_neq in E. contradiction.
    + exists a. split; assumption.
Qed.

(** With [attendees.id] a primary key and every [attendee_id]
    referencing an attendee, the join has one row per attendance row. *)
Lemma daily_join_fst (attendance : list attendance_row) (attendees : list attendees_row) :
  NoDup (List.map ar_id attendees) ->
  (forall r, In r attendance -> exists a, In a attendees /\ ar_id a = attendee_id r) ->
  List.map fst (daily_join attendance attendees) = attendance.
Proof.
  intros Hnd Hfk. induction attendance as [|r l IH]; [reflexivity|].
  unfold daily_join. simpl flat_map. rewrite map_app.
  destruct (filter_attendees_one (attendee_id r) attendees Hnd (Hfk r (or_introl eq_refl)))
    as [a Ha].
  rewrite Ha. simpl. f_equal. apply IH. intros r' Hr'. apply Hfk. right. exact Hr'.
Qed.

Lemma length_filter_fst {A B} (f : A -> bool) (j : list (A * B)) :
  List.length (List.filter (fun p => f p.1) j) = List.length (List.filter f (List.map fst j)).
Proof. induction j as [|[x y] j IH]; [reflexivity|]. simpl. destruct (f x); simpl; lia. Qed.

Lemma sum_indicator (x : Z) (D : list Z) :
  NoDup D -> In x D ->
  List.list_sum (List.map (fun d => if Z.eqb x d then 1 else 0) D) = 1.
Proof.
  induction D as [|d D IH]; intros Hnd Hx; [destruct Hx|].
  apply NoDup_cons in Hnd as [Hd Hnd]. simpl.
  destruct (Z.eqb x d) eqn:E.
  - apply Z.eqb_eq in E. subst d.
    enough (List.list_sum (List.map (fun d => if Z.eqb x d then 1 else 0) D) = 0) by lia.
    clear IH Hnd Hx. induction D as [|e D IHD]; [reflexivity|]. simpl.
    destruct (Z.eqb x e) eqn:E'.
    + apply Z.eqb_eq in E'. subst e. exfalso. apply Hd. left.
    + apply IHD. intros Hin. apply Hd. right. exact Hin.
  - apply Z.eqb_neq in E. destruct Hx as [->|Hx]; [contradiction|].
    apply IH; assumption.
Qed.

Lemma sum_counts (ds D : list Z) :
  NoDup D -> (forall x, In x ds -> In x D) ->
  List.list_sum (List.map (fun d => List.length (List.filter (fun x => Z.eqb x d) ds)) D)
  = List.length ds.
Proof.
  intros Hnd. induction ds as [|x ds IH]; intros Hsub.
  - simpl. clear. induction D as [|d D IHD]; [reflexivity|]. simpl. exact IHD.
  - transitivity (List.list_sum (List.map (fun d => if Z.eqb x d then 1 else 0) D) +
                  List.list_sum (List.map (fun d =>
                    List.length (List.filter (fun x => Z.eqb x d) ds)) D)).
    + clear. unfold List.list_sum. induction D as [|d D IHD]; [reflexivity|].
      cbn [List.map fold_right]. rewrite IHD. simpl.
      destruct (Z.eqb x d); simpl; lia.
    + rewrite sum_indicator by (assumption || (apply Hsub; left; reflexivity)).
      rewrite IH by (intros y Hy; apply Hsub; right; exact Hy). reflexivity.
Qed.

Lemma length_filter_map {A B} (g : A -> B) (f : B -> bool) (l : list A) :
  List.length (List.filter (fun a => f (g a)) l) = List.length (List.filter f (List.map g l)).
Proof. induction l as [|x l IH]; [reflexivity|]. simpl. destruct (f (g x)); simpl; lia. Qed.

(** Under the foreign key and the primary key of [attendees], each row
    [(d, n)] of [daily_attendance] counts the attendance rows whose
    entry falls on day [d], and the counts of all days add up to the
    number of attendance rows: every check-in is counted once. *)
Theorem daily_attendance_counts (date_of : Z -> Z) (attendance : list attendance_row)
    (attendees : list attendees_row) :
  NoDup (List.map ar_id attendees) ->
  (forall r, In r attendance -> exists a, In a attendees /\ ar_id a = attendee_id r) ->
  (forall d n, In (d, n) (daily_attendance date_of attendance attendees) ->
     n = List.length (List.filter (fun r => Z.eqb (date_of (entry_time r)) d) attendance)) /\
  List.list_sum (List.map snd (daily_attendance date_of attendance attendees))
    = List.length attendance.
Proof.
  intros Hnd Hfk. pose proof (daily_join_fst attendance attendees Hnd Hfk) as Hj.
  unfold daily_attendance. split.
  - intros d n Hin. apply in_map_iff in Hin as [d' [Heq _]]. injection Heq as <- <-.
    rewrite (length_filter_fst (fun r => Z.eqb (date_of (entry_time r)) d')), Hj.
    reflexivity.
  - rewrite map_map. simpl.
    rewrite (List.map_ext _ (fun d => List.length (List.filter (fun x => Z.eqb x d)
               (List.map (fun r => date_of (entry_time r)) attendance))))
      by (intros d; rewrite (length_filter_fst (fun r => Z.eqb (date_of (entry_time r)) d)),
            Hj;
          apply (length_filter_map (fun r => date_of (entry_time r)) (fun x => Z.eqb x d))).
    rewrite <- (length_map (fun r => date_of (entry_time r)) attendance).
    apply sum_counts; [apply NoDup_ListNoDup, NoDup_nodup|].
    intros x Hx. apply nodup_In.
    replace (List.map (fun p => date_of (entry_time p.1)) (daily_join attendance attendees))
      with (List.map (fun r => date_of (entry_time r)) (List.map fst (daily_join attendance attendees)))
      by (rewrite map_map; reflexivity).
    rewrite Hj. exact Hx.
Qed.

Lemma daily_attendance_counts_witness :
  NoDup (List.map ar_id [{| ar_id := 1; ar_batch := "DYP" |}; {| ar_id := 2; ar_batch := "BMI" |}]) /\
  (forall r, In r [{| att_id := 10; attendee_id := 1; entry_time := 5 |};
                   {| att_id := 11; attendee_id := 2; entry_time := 30 |}] ->
     exists a, In a [{| ar_id := 1; ar_batch := "DYP" |}; {| ar_id := 2; ar_batch := "BMI" |}]
               /\ ar_id a = attendee_id r) /\
  ((forall d n, In (d, n) (daily_attendance (fun t => Z.div t 24)
       [{| att_id := 10; attendee_id := 1; entry_time := 5 |};
        {| att_id := 11; attendee_id := 2; entry_time := 30 |}]
       [{| ar_id := 1; ar_batch := "DYP" |}; {| ar_id := 2; ar_batch := "BMI" |}]) ->
     n = List.length (List.filter (fun r => Z.eqb (Z.div (entry_time r) 24) d)
       [{| att_id := 10; attendee_id := 1; entry_time := 5 |};
        {| att_id := 11; attendee_id := 2; entry_time := 30 |}])) /\
   List.list_sum (List.map snd (daily_attendance (fun t => Z.div t 24)
       [{| att_id := 10; attendee_id := 1; entry_time := 5 |};
        {| att_id := 11; attendee_id := 2; entry_time := 30 |}]
       [{| ar_id := 1; ar_batch := "DYP" |}; {| ar_id := 2; ar_batch := "BMI" |}]))
   = List.length [{| att_id := 10; attendee_id := 1; entry_time := 5 |};
                  {| att_id := 11; attendee_id := 2; entry_time := 30 |}]).
Proof.
  assert (H1 : NoDup (List.map ar_id
    [{| ar_id := 1; ar_batch := "DYP" |}; {| ar_id := 2; ar_batch := "BMI" |}])).
  { simpl. constructor; [|apply NoDup_singleton].
    rewrite list_elem_of_singleton. discriminate. }
  assert (H2 : forall r, In r [{| att_id := 10; attendee_id := 1; entry_time := 5 |};
                   {| att_id := 11; attendee_id := 2; entry_time := 30 |}] ->
     exists a, In a [{| ar_id := 1; ar_batch := "DYP" |}; {| ar_id := 2; ar_batch := "BMI" |}]
               /\ ar_id a = attendee_id r).
  { intros r [<-|[<-|[]]];
      [exists {| ar_id := 1; ar_batch := "DYP" |}|exists {| ar_id := 2; ar_batch := "BMI" |}];
      simpl; auto. }
  split; [exact H1|]. split; [exact H2|].
  exact (daily_attendance_counts (fun t => Z.div t 24) _ _ H1 H2).
Defined.
